(** * otapreopt_chroot: the chroot wrapper of the OTA pre-optimisation step

    A shallow embedding of [cmds/installd/otapreopt_chroot.cpp].

    The program is a straight line of system calls, each of which either
    lets execution continue or ends the process with [exit(n)].  It is
    embedded as a finite interaction tree ([Proc]): a node is a call to the
    outside world (the kernel, libselinux, apexd, the logger) together with
    the continuation that receives the call's result; a leaf is a normal
    return, a call of [exit], or undefined behaviour (reading [arg[i]] past
    the end of the argument array).  A tree is executed against a [World],
    an arbitrary function from the history of the run and the call to the
    call's result, and yields the chronological trace of calls with their
    results, and the outcome. *)

From Stdlib Require Import ZArith List String Ascii Bool Lia.
Import ListNotations.
Local Open Scope string_scope.
Local Open Scope Z_scope.
Local Open Scope list_scope.

(** ** Constants of the C library and kernel headers *)

Definition STDIN_FILENO : Z := 0.
Definition STDOUT_FILENO : Z := 1.
Definition STDERR_FILENO : Z := 2.

Definition MS_RDONLY : Z := 1.
Definition MS_NOSUID : Z := 2.
Definition MS_NODEV : Z := 4.
Definition MS_NOEXEC : Z := 8.
Definition MS_BIND : Z := 4096.
Definition MS_REC : Z := 16384.
Definition MS_PRIVATE : Z := Z.shiftl 1 18.
Definition CLONE_NEWNS : Z := 131072.
Definition F_OK : Z := 0.

Definition INT_MIN : Z := - 2 ^ 31.
Definition INT_MAX : Z := 2 ^ 31 - 1.

(** [static_cast<size_t>] of an [int], on a 64-bit [size_t]. *)
Definition size_t_of_int (n : Z) : Z := n mod 2 ^ 64.

(** ** Data of the apexd library, as far as this program looks at it *)

Record ApexFile := mkApexFile { GetPath : string }.

Inductive Status :=
| StatusSuccess
| StatusFail (ErrorMessage : string).

Definition Ok (s : Status) : bool :=
  match s with StatusSuccess => true | StatusFail _ => false end.

Definition ErrorMessage (s : Status) : string :=
  match s with StatusSuccess => "" | StatusFail m => m end.

(** ** Calls to the outside world *)

Inductive LogSeverity := INFO | ERROR.

(** [Call T] is a call whose result has type [T].  [Log] stands for both
    [LOG] and [PLOG]; the flag tells them apart ([PLOG] appends the text of
    [errno]). *)
Inductive Call : Type -> Type :=
| Close (fd : Z) : Call Z
| Unshare (flags : Z) : Call Z
| Mount (source target : string) (fstype : option string) (mountflags : Z) : Call Z
| Restorecon (path : string) (flags : Z) : Call Z
| Chmod (path : string) (mode : Z) : Call Z
| Chown (path : string) (owner group : Z) : Call Z
| Chdir (path : string) : Call Z
| Chroot (path : string) : Call Z
| Access (path : string) (mode : Z) : Call Z
| ScanPackagesDirAndActivate (dir : string) : Call unit
| GetActivePackages : Call (list ApexFile)
| DeactivatePackage (path : string) : Call Status
| ForkExec (cmd : list string) : Call (bool * string)
| Log (severity : LogSeverity) (with_errno : bool) (msg : string) : Call unit.

(** An event of the trace: a call and the result the world gave. *)
Inductive Event :=
| EClose (fd : Z) (r : Z)
| EUnshare (flags : Z) (r : Z)
| EMount (source target : string) (fstype : option string) (mountflags : Z) (r : Z)
| ERestorecon (path : string) (flags : Z) (r : Z)
| EChmod (path : string) (mode : Z) (r : Z)
| EChown (path : string) (owner group : Z) (r : Z)
| EChdir (path : string) (r : Z)
| EChroot (path : string) (r : Z)
| EAccess (path : string) (mode : Z) (r : Z)
| EScanPackagesDirAndActivate (dir : string)
| EGetActivePackages (r : list ApexFile)
| EDeactivatePackage (path : string) (r : Status)
| EForkExec (cmd : list string) (ok : bool) (error_msg : string)
| ELog (severity : LogSeverity) (with_errno : bool) (msg : string).

Definition Ev {T} (c : Call T) : T -> Event :=
  match c in Call T return T -> Event with
  | Close fd => EClose fd
  | Unshare flags => EUnshare flags
  | Mount source target fstype mountflags => EMount source target fstype mountflags
  | Restorecon path flags => ERestorecon path flags
  | Chmod path mode => EChmod path mode
  | Chown path owner group => EChown path owner group
  | Chdir path => EChdir path
  | Chroot path => EChroot path
  | Access path mode => EAccess path mode
  | ScanPackagesDirAndActivate dir => fun _ => EScanPackagesDirAndActivate dir
  | GetActivePackages => EGetActivePackages
  | DeactivatePackage path => EDeactivatePackage path
  | ForkExec cmd => fun r => EForkExec cmd (fst r) (snd r)
  | Log severity with_errno msg => fun _ => ELog severity with_errno msg
  end.

Definition Trace := list Event.

(** ** Processes *)

Inductive Proc (A : Type) : Type :=
| Ret (a : A)
| Exit (code : Z)
| Undef
| Vis {T : Type} (c : Call T) (k : T -> Proc A).

Arguments Ret {A} a.
Arguments Exit {A} code.
Arguments Undef {A}.
Arguments Vis {A T} c k.

Fixpoint bind {A B} (p : Proc A) (f : A -> Proc B) : Proc B :=
  match p with
  | Ret a => f a
  | Exit code => Exit code
  | Undef => Undef
  | Vis c k => Vis c (fun r => bind (k r) f)
  end.

Definition call {T} (c : Call T) : Proc T := Vis c Ret.

Declare Scope proc_scope.
Delimit Scope proc_scope with proc.
Notation "x <- p ;; q" := (bind p (fun x => q))
  (at level 100, p at next level, right associativity) : proc_scope.
Notation "' pat <- p ;; q" := (bind p (fun x => let 'pat := x in q))
  (at level 100, pat pattern, p at next level, right associativity) : proc_scope.
Notation "p ;; q" := (bind p (fun _ => q))
  (at level 100, right associativity) : proc_scope.
Local Open Scope proc_scope.

(** [if (b) { p }] where [p] may or may not fall through. *)
Definition when (b : bool) (p : Proc unit) : Proc unit :=
  if b then p else Ret tt.

Inductive Outcome (A : Type) : Type :=
| Returned (a : A)
| Exited (code : Z)
| Undefined.

Arguments Returned {A} a.
Arguments Exited {A} code.
Arguments Undefined {A}.

(** The world answers a call knowing everything that happened before. *)
Definition World := forall T : Type, Trace -> Call T -> T.

Fixpoint run {A} (p : Proc A) (w : World) (tr : Trace) : Trace * Outcome A :=
  match p with
  | Ret a => (tr, Returned a)
  | Exit code => (tr, Exited code)
  | Undef => (tr, Undefined)
  | Vis c k => let r := w _ tr c in run (k r) w (tr ++ [Ev c r])
  end.

(** ** The wrappers of the calls *)

Definition close (fd : Z) : Proc Z := call (Close fd).
Definition unshare (flags : Z) : Proc Z := call (Unshare flags).
Definition mount (source target : string) (fstype : option string)
    (mountflags : Z) : Proc Z :=
  call (Mount source target fstype mountflags).
Definition selinux_android_restorecon (path : string) (flags : Z) : Proc Z :=
  call (Restorecon path flags).
Definition chmod (path : string) (mode : Z) : Proc Z := call (Chmod path mode).
Definition chown (path : string) (owner group : Z) : Proc Z :=
  call (Chown path owner group).
Definition chdir (path : string) : Proc Z := call (Chdir path).
Definition chroot (path : string) : Proc Z := call (Chroot path).
Definition access (path : string) (mode : Z) : Proc Z := call (Access path mode).
Definition scanPackagesDirAndActivate (dir : string) : Proc unit :=
  call (ScanPackagesDirAndActivate dir).
Definition getActivePackages : Proc (list ApexFile) := call GetActivePackages.
Definition deactivatePackage (path : string) : Proc Status :=
  call (DeactivatePackage path).
(** [Exec(cmd, &error_msg)] of otapreopt_utils.h: forks, executes [cmd] and
    waits; the result is the success flag and the error message. *)
Definition Exec (cmd : list string) : Proc (bool * string) := call (ForkExec cmd).
Definition LOG (severity : LogSeverity) (msg : string) : Proc unit :=
  call (Log severity false msg).
Definition PLOG (severity : LogSeverity) (msg : string) : Proc unit :=
  call (Log severity true msg).
Definition exit {A} (code : Z) : Proc A := Exit code.

(** ** Loops *)

(** A range-[for] whose body falls through or leaves the process. *)
Fixpoint for_each {A} (l : list A) (body : A -> Proc unit) : Proc unit :=
  match l with
  | [] => Ret tt
  | x :: rest => body x;; for_each rest body
  end.

(** A range-[for] whose body may [return v] from the enclosing function:
    the body yields [Some v] for [return v] and [None] to go on. *)
Fixpoint for_each_return {A R} (l : list A) (body : A -> Proc (option R))
    : Proc (option R) :=
  match l with
  | [] => Ret None
  | x :: rest =>
      r <- body x;;
      match r with
      | Some v => Ret (Some v)
      | None => for_each_return rest body
      end
  end.

(** [arg[i]]: reading past the end of the array is undefined. *)
Definition arg_at (arg : list string) (i : nat) : Proc string :=
  match nth_error arg i with
  | Some a => Ret a
  | None => Undef
  end.

(** ** [std::istringstream stream(s); stream >> fd; stream.fail()]

    Formatted extraction of an [int] in the classic locale, as libc++ does
    it: leading white space is skipped; at the end of the input the sentry
    fails and [fd] keeps its value; otherwise an optional sign and the
    longest run of decimal digits are read; no digit gives 0 and failure, a
    value out of the range of [int] gives the nearest bound and failure.
    The result is the new value of [fd] and the fail bit. *)

Definition isspace (c : ascii) : bool :=
  let n := Z.of_nat (nat_of_ascii c) in
  (n =? 32) || ((9 <=? n) && (n <=? 13)).

Definition isdigit (c : ascii) : bool :=
  let n := Z.of_nat (nat_of_ascii c) in
  (48 <=? n) && (n <=? 57).

Definition digit_value (c : ascii) : Z := Z.of_nat (nat_of_ascii c) - 48.

Fixpoint skipws (s : string) : string :=
  match s with
  | String c rest => if isspace c then skipws rest else s
  | EmptyString => EmptyString
  end.

(** The digits at the head of [s], accumulated in base 10 on top of [acc];
    the second component is the number of digits read. *)
Fixpoint read_digits (s : string) (acc : Z) (n : nat) : Z * nat :=
  match s with
  | String c rest =>
      if isdigit c then read_digits rest (10 * acc + digit_value c) (S n)
      else (acc, n)
  | EmptyString => (acc, n)
  end.

Definition istream_extract_int (s : string) (fd : Z) : Z * bool :=
  match skipws s with
  | EmptyString => (fd, true)
  | String c rest as s1 =>
      let '(negative, digits) :=
        if Ascii.eqb c "-" then (true, rest)
        else if Ascii.eqb c "+" then (false, rest)
        else (false, s1) in
      let '(magnitude, n) := read_digits digits 0 0 in
      match n with
      | O => (0, true)
      | S _ =>
          let v := if negative then - magnitude else magnitude in
          if v <? INT_MIN then (INT_MIN, true)
          else if INT_MAX <? v then (INT_MAX, true)
          else (v, false)
      end
  end.

(** ** The program *)

(** Configuration for bind-mounted Bionic artifacts. *)

Definition kLinkerMountPoint := "/bionic/bin/linker".
Definition kRuntimeLinkerPath := "/apex/com.android.runtime/bin/linker".

Definition kBionicLibsMountPointDir := "/bionic/lib/".
Definition kRuntimeBionicLibsDir := "/apex/com.android.runtime/lib/bionic/".

Definition kLinkerMountPoint64 := "/bionic/bin/linker64".
Definition kRuntimeLinkerPath64 := "/apex/com.android.runtime/bin/linker64".

Definition kBionicLibsMountPointDir64 := "/bionic/lib64/".
Definition kRuntimeBionicLibsDir64 := "/apex/com.android.runtime/lib64/bionic/".

Definition kBionicLibFileNames : list string := ["libc.so"; "libm.so"; "libdl.so"].

(** [CloseDescriptor(int fd)] *)
Definition CloseDescriptor (fd : Z) : Proc unit :=
  if 0 <=? fd then
    result <- close fd;;
    Ret tt                      (* UNUSED(result) *)
  else Ret tt.

(** [CloseDescriptor(const char* descriptor_string)] *)
Definition CloseDescriptor_string (descriptor_string : string) : Proc unit :=
  let fd := -1 in
  let '(fd, fail) := istream_extract_int descriptor_string fd in
  if negb fail then CloseDescriptor fd else Ret tt.

Definition DeactivateApexPackages (active_packages : list ApexFile) : Proc unit :=
  for_each active_packages (fun apex_file =>
    let package_path := GetPath apex_file in
    status <- deactivatePackage package_path;;
    when (negb (Ok status))
      (LOG ERROR ("Failed to deactivate " ++ package_path ++ ": "
                  ++ ErrorMessage status)%string)).

Definition BindMount (source mount_point : string) (recursive : bool) : Proc bool :=
  let mountflags := MS_BIND in
  let mountflags := if recursive then Z.lor mountflags MS_REC else mountflags in
  r <- mount source mount_point None mountflags;;
  if r =? -1 then
    PLOG ERROR ("Could not bind-mount " ++ source ++ " to " ++ mount_point)%string;;
    Ret false
  else Ret true.

Definition BindMountBionic (linker_source lib_dir_source linker_mount_point
    lib_mount_dir : string) : Proc bool :=
  a <- access linker_source F_OK;;
  if negb (a =? 0) then
    PLOG INFO (linker_source ++ " does not exist. Skipping mounting Bionic there.")%string;;
    Ret true
  else
    ok <- BindMount linker_source linker_mount_point false;;
    if negb ok then Ret false
    else
      early <- for_each_return kBionicLibFileNames (fun libname =>
        let mount_point := (lib_mount_dir ++ libname)%string in
        let source := (lib_dir_source ++ libname)%string in
        ok <- BindMount source mount_point false;;
        if negb ok then Ret (Some false) else Ret None);;
      match early with
      | Some v => Ret v
      | None => Ret true
      end.

Section Program.

(** Declared in otapreopt_utils.h and apexd.h, which are not part of this
    file: the format check of the slot suffix, a predicate over the string,
    and the directory of the system APEX packages. *)
Variable ValidateTargetSlotSuffix : string -> bool.
Variable kApexPackageSystemDir : string.

Definition ActivateApexPackages : Proc (list ApexFile) :=
  scanPackagesDirAndActivate kApexPackageSystemDir;;
  getActivePackages.

Definition kBindMounts : list string := ["/data"; "/dev"; "/proc"; "/sys"].

Definition kPostinstallApexDir := "/postinstall/apex".

(** The loop [for (size_t i = 2; i < static_cast<size_t>(argc); ++i)
    cmd.push_back(arg[i])], with [count] iterations left. *)
Fixpoint push_args (count : nat) (i : nat) (arg : list string)
    (cmd : list string) : Proc (list string) :=
  match count with
  | O => Ret cmd
  | S count' =>
      a <- arg_at arg i;;
      push_args count' (S i) arg (cmd ++ [a])
  end.

Definition otapreopt_chroot (argc : Z) (arg : list string) : Proc Z :=
  when (argc <? 3)
    (PLOG ERROR "Not enough arguments.";;
     exit 208);;
  CloseDescriptor STDIN_FILENO;;
  CloseDescriptor STDOUT_FILENO;;
  CloseDescriptor STDERR_FILENO;;
  arg1 <- arg_at arg 1;;
  CloseDescriptor_string arg1;;

  r <- unshare CLONE_NEWNS;;
  when (negb (r =? 0))
    (PLOG ERROR "Failed to unshare() for otapreopt.";;
     exit 200);;

  r <- mount "" "/postinstall" None MS_PRIVATE;;
  when (negb (r =? 0))
    (PLOG ERROR "Failed to mount private.";;
     exit 201);;

  for_each kBindMounts (fun m =>
    let trg := ("/postinstall" ++ m)%string in
    r <- mount m trg None MS_BIND;;
    when (negb (r =? 0))
      (PLOG ERROR ("Failed to bind-mount " ++ m)%string;;
       exit 202));;

  arg2 <- arg_at arg 2;;
  when (negb (ValidateTargetSlotSuffix arg2))
    (LOG ERROR ("Target slot suffix not legal: " ++ arg2)%string;;
     exit 207);;
  (let vendor_partition := ("/dev/block/by-name/vendor" ++ arg2)%string in
   vendor_result <- mount vendor_partition "/postinstall/vendor" (Some "ext4")
                          MS_RDONLY;;
   Ret tt);;
  (let product_partition := ("/dev/block/by-name/product" ++ arg2)%string in
   product_result <- mount product_partition "/postinstall/product" (Some "ext4")
                           MS_RDONLY;;
   Ret tt);;

  r <- mount "tmpfs" kPostinstallApexDir (Some "tmpfs")
             (Z.lor (Z.lor MS_NODEV MS_NOEXEC) MS_NOSUID);;
  when (negb (r =? 0))
    (PLOG ERROR ("Failed to mount tmpfs in " ++ kPostinstallApexDir)%string;;
     exit 209);;
  r <- selinux_android_restorecon kPostinstallApexDir 0;;
  when (r <? 0)
    (PLOG ERROR ("Failed to restorecon " ++ kPostinstallApexDir)%string;;
     exit 214);;
  r <- chmod kPostinstallApexDir 493 (* 0755 *);;
  when (negb (r =? 0))
    (PLOG ERROR ("Failed to chmod " ++ kPostinstallApexDir ++ " to 0755")%string;;
     exit 210);;
  r <- chown kPostinstallApexDir 0 0;;
  when (negb (r =? 0))
    (PLOG ERROR ("Failed to chown " ++ kPostinstallApexDir ++ " to root:root")%string;;
     exit 211);;

  r <- chdir "/postinstall";;
  when (negb (r =? 0))
    (PLOG ERROR "Unable to chdir into /postinstall.";;
     exit 203);;

  r <- chroot ".";;
  when (negb (r =? 0))
    (PLOG ERROR "Failed to chroot";;
     exit 204);;

  r <- chdir "/";;
  when (negb (r =? 0))
    (PLOG ERROR "Unable to chdir into /.";;
     exit 205);;

  active_packages <- ActivateApexPackages;;

  ok <- BindMountBionic kRuntimeLinkerPath kRuntimeBionicLibsDir kLinkerMountPoint
                        kBionicLibsMountPointDir;;
  when (negb ok)
    (LOG ERROR "Failed to mount 32-bit Bionic artifacts from the Runtime APEX.";;
     DeactivateApexPackages active_packages;;
     exit 215);;
  ok <- BindMountBionic kRuntimeLinkerPath64 kRuntimeBionicLibsDir64
                        kLinkerMountPoint64 kBionicLibsMountPointDir64;;
  when (negb ok)
    (LOG ERROR "Failed to mount 64-bit Bionic artifacts from the Runtime APEX.";;
     DeactivateApexPackages active_packages;;
     exit 216);;

  cmd <- push_args (Z.to_nat (size_t_of_int argc - 2)) 2 arg
                   ["/system/bin/otapreopt"];;

  '(exec_result, error_msg) <- Exec cmd;;
  when (negb exec_result)
    (LOG ERROR ("Running otapreopt failed: " ++ error_msg)%string);;

  DeactivateApexPackages active_packages;;

  when (negb exec_result)
    (exit 213);;

  Ret 0.

(** [main]: the array [argv] has [argc] elements. *)
Definition main (argv : list string) : Proc Z :=
  otapreopt_chroot (Z.of_nat (List.length argv)) argv.

End Program.


(** * Traces and what is observed on them *)

(** ** Paths of a process

    [path p tr out]: [tr] is the sequence of calls and results along one
    branch of [p], from the root to the leaf [out].  Every run follows a
    path, whatever the world answers. *)

Fixpoint path {A} (p : Proc A) (tr : Trace) (out : Outcome A) : Prop :=
  match p with
  | Ret a => tr = [] /\ out = Returned a
  | Exit code => tr = [] /\ out = Exited code
  | Undef => tr = [] /\ out = Undefined
  | Vis c k => exists r tr', tr = Ev c r :: tr' /\ path (k r) tr' out
  end.

(** What [DeactivateApexPackages] leaves in the trace, given the status
    each [deactivatePackage] returned. *)
Fixpoint deactivation_trace (pkgs : list ApexFile) (sts : list Status) : Trace :=
  match pkgs, sts with
  | p :: pkgs', st :: sts' =>
      EDeactivatePackage (GetPath p) st
      :: (if Ok st then []
          else [ELog ERROR false
                  ("Failed to deactivate " ++ GetPath p ++ ": "
                   ++ ErrorMessage st)%string])
      ++ deactivation_trace pkgs' sts'
  | _, _ => []
  end.

(** What [CloseDescriptor] of a string leaves in the trace. *)
Definition close_string_trace (s : string) (pre : Trace) : Prop :=
  let '(fd, fail) := istream_extract_int s (-1) in
  if negb fail && (0 <=? fd) then exists r, pre = [EClose fd r]
  else pre = [].

(** ** Observations on traces *)

Definition is_close (e : Event) : bool :=
  match e with EClose _ _ => true | _ => false end.
Definition is_unshare (e : Event) : bool :=
  match e with EUnshare _ _ => true | _ => false end.
Definition is_mount (e : Event) : bool :=
  match e with EMount _ _ _ _ _ => true | _ => false end.
Definition is_activation (e : Event) : bool :=
  match e with EGetActivePackages _ => true | _ => false end.
Definition is_exec (e : Event) : bool :=
  match e with EForkExec _ _ _ => true | _ => false end.

(** The part of the trace before, and after, the first event that
    satisfies [p]. *)
Fixpoint before (p : Event -> bool) (tr : Trace) : Trace :=
  match tr with
  | [] => []
  | e :: rest => if p e then [] else e :: before p rest
  end.

Fixpoint after (p : Event -> bool) (tr : Trace) : Trace :=
  match tr with
  | [] => []
  | e :: rest => if p e then rest else after p rest
  end.

(** The paths given to [deactivatePackage], in the order of the calls. *)
Fixpoint deactivations (tr : Trace) : list string :=
  match tr with
  | [] => []
  | EDeactivatePackage path _ :: rest => path :: deactivations rest
  | _ :: rest => deactivations rest
  end.

(** [DeactivateApexPackages] only deactivates and logs. *)
Definition deactivation_event (e : Event) : bool :=
  match e with
  | EDeactivatePackage _ _ => true
  | ELog ERROR false _ => true
  | _ => false
  end.

Definition is_private_mount (e : Event) : bool :=
  match e with
  | EMount source target None flags _ =>
      String.eqb source "" && String.eqb target "/postinstall" && (flags =? MS_PRIVATE)
  | _ => false
  end.

(** A bind mount of one of the four core directories onto its place under
    /postinstall. *)
Definition is_core_bind_mount (e : Event) : bool :=
  match e with
  | EMount source target None flags _ =>
      existsb (fun m => String.eqb source m && String.eqb target ("/postinstall" ++ m))
              kBindMounts
      && (flags =? MS_BIND)
  | _ => false
  end.

(** The calls of the steps that come after the core bind mounts: every
    call but [close], [unshare], the private mount, the core bind mounts
    and the logger. *)
Definition later_step (e : Event) : bool :=
  match e with
  | EClose _ _ | EUnshare _ _ | ELog _ _ _ => false
  | EMount _ _ _ _ _ => negb (is_private_mount e) && negb (is_core_bind_mount e)
  | _ => true
  end.

(** A mount of a partition named after the slot suffix: the source is
    under /dev/block/by-name/, or the target is the vendor or the product
    directory of the staging root. *)
Definition is_partition_mount (e : Event) : bool :=
  match e with
  | EMount source target _ _ _ =>
      String.prefix "/dev/block/by-name/" source
      || String.eqb target "/postinstall/vendor"
      || String.eqb target "/postinstall/product"
  | _ => false
  end.

(** *** The seven steps that finish the staging root *)

Definition finalizer_calls : list (Z -> Event) :=
  [ EMount "tmpfs" "/postinstall/apex" (Some "tmpfs")
           (Z.lor (Z.lor MS_NODEV MS_NOEXEC) MS_NOSUID);
    ERestorecon "/postinstall/apex" 0;
    EChmod "/postinstall/apex" 493;
    EChown "/postinstall/apex" 0 0;
    EChdir "/postinstall";
    EChroot ".";
    EChdir "/" ].

(** The exit code of each step, and the test that makes it fatal:
    [restorecon] fails on a negative result, the others on a result other
    than 0. *)
Definition finalizer_codes : list Z := [209; 214; 210; 211; 203; 204; 205].

Definition finalizer_failed (i : nat) (r : Z) : bool :=
  if Nat.eqb i 1 then r <? 0 else negb (r =? 0).

Definition is_finalizer_call (e : Event) : bool :=
  match e with
  | EMount _ _ (Some fstype) _ _ => String.eqb fstype "tmpfs"
  | ERestorecon _ _ _ | EChmod _ _ _ | EChown _ _ _ _
  | EChdir _ _ | EChroot _ _ => true
  | _ => false
  end.

Definition is_relabel (e : Event) : bool :=
  match e with ERestorecon _ _ _ => true | _ => false end.

Definition is_chmod_or_chown (e : Event) : bool :=
  match e with EChmod _ _ _ | EChown _ _ _ _ => true | _ => false end.

(** The calls, each with the result of the same rank. *)
Fixpoint apply_results (calls : list (Z -> Event)) (rs : list Z) : Trace :=
  match calls, rs with
  | c :: calls', r :: rs' => c r :: apply_results calls' rs'
  | _, _ => []
  end.

(** The result of a call that returns an [int]. *)
Definition result_of (e : Event) : Z :=
  match e with
  | EClose _ r | EUnshare _ r | EMount _ _ _ _ r | ERestorecon _ _ r
  | EChmod _ _ r | EChown _ _ _ r | EChdir _ r | EChroot _ r
  | EAccess _ _ r => r
  | _ => 0
  end.

(** *** The places where the process gives up *)

Inductive FailureSite :=
| InsufficientArguments
| UnshareFailure
| PrivateMountFailure
| CoreBindMountFailure
| InvalidSlotSuffix
| TmpfsMountFailure
| RelabelFailure
| ChmodFailure
| ChownFailure
| ChdirStagingFailure
| ChrootFailure
| ChdirRootFailure
| Bionic32MountFailure
| Bionic64MountFailure
| ExecutionFailure.

(** The argument of [exit] at each place. *)
Definition site_code (site : FailureSite) : Z :=
  match site with
  | InsufficientArguments => 208
  | UnshareFailure => 200
  | PrivateMountFailure => 201
  | CoreBindMountFailure => 202
  | InvalidSlotSuffix => 207
  | TmpfsMountFailure => 209
  | RelabelFailure => 214
  | ChmodFailure => 210
  | ChownFailure => 211
  | ChdirStagingFailure => 203
  | ChrootFailure => 204
  | ChdirRootFailure => 205
  | Bionic32MountFailure => 215
  | Bionic64MountFailure => 216
  | ExecutionFailure => 213
  end.

(** The bind mounts of one variant of the Bionic artifacts: the linker,
    then the libraries. *)
Definition bionic_mounts (linker_source lib_dir_source linker_mount_point
    lib_mount_dir : string) : list (string * string) :=
  (linker_source, linker_mount_point)
  :: map (fun libname => ((lib_dir_source ++ libname)%string,
                          (lib_mount_dir ++ libname)%string))
         kBionicLibFileNames.

Definition bionic_mounts32 : list (string * string) :=
  bionic_mounts kRuntimeLinkerPath kRuntimeBionicLibsDir kLinkerMountPoint
                kBionicLibsMountPointDir.

Definition bionic_mounts64 : list (string * string) :=
  bionic_mounts kRuntimeLinkerPath64 kRuntimeBionicLibsDir64 kLinkerMountPoint64
                kBionicLibsMountPointDir64.

Definition is_bind_mount_of (mounts : list (string * string)) (e : Event) : bool :=
  match e with
  | EMount source target None flags _ =>
      existsb (fun m => String.eqb source (fst m) && String.eqb target (snd m)) mounts
      && (flags =? MS_BIND)
  | _ => false
  end.

(** The event is the failure of a call, as tested at the given place. *)
Definition failed_at (site : FailureSite) (e : Event) : bool :=
  match site, e with
  | UnshareFailure, EUnshare _ r => negb (r =? 0)
  | PrivateMountFailure, EMount _ _ _ _ r => is_private_mount e && negb (r =? 0)
  | CoreBindMountFailure, EMount _ _ _ _ r => is_core_bind_mount e && negb (r =? 0)
  | TmpfsMountFailure, EMount _ _ (Some fstype) _ r =>
      String.eqb fstype "tmpfs" && negb (r =? 0)
  | RelabelFailure, ERestorecon _ _ r => r <? 0
  | ChmodFailure, EChmod _ _ r => negb (r =? 0)
  | ChownFailure, EChown _ _ _ r => negb (r =? 0)
  | ChdirStagingFailure, EChdir path r => String.eqb path "/postinstall" && negb (r =? 0)
  | ChrootFailure, EChroot _ r => negb (r =? 0)
  | ChdirRootFailure, EChdir path r => String.eqb path "/" && negb (r =? 0)
  | Bionic32MountFailure, EMount _ _ _ _ r =>
      is_bind_mount_of bionic_mounts32 e && (r =? -1)
  | Bionic64MountFailure, EMount _ _ _ _ r =>
      is_bind_mount_of bionic_mounts64 e && (r =? -1)
  | ExecutionFailure, EForkExec _ ok _ => negb ok
  | _, _ => false
  end.

(** The four core bind mounts have been made. *)
Definition core_bind_mounts_done (tr : Trace) : bool :=
  forallb (fun m =>
    existsb (fun e =>
      match e with
      | EMount source target None flags r =>
          String.eqb source m && String.eqb target ("/postinstall" ++ m)
          && (flags =? MS_BIND) && (r =? 0)
      | _ => false
      end) tr) kBindMounts.

Section FailureSites.

Variable ValidateTargetSlotSuffix : string -> bool.

(** The run with arguments [argv] and trace [tr] has failed at [site]: too
    few arguments; the slot suffix refused once the core bind mounts are
    made; or a call that failed in the trace. *)
Definition site_failed (argv : list string) (site : FailureSite) (tr : Trace) : bool :=
  match site with
  | InsufficientArguments => Z.of_nat (List.length argv) <? 3
  | InvalidSlotSuffix =>
      match nth_error argv 2 with
      | Some suffix => negb (ValidateTargetSlotSuffix suffix)
      | None => false
      end && core_bind_mounts_done tr
  | _ => existsb (failed_at site) tr
  end.

End FailureSites.

(** The bind mounts of a variant, as calls that await their results. *)
Definition bionic_mount_calls (mounts : list (string * string)) : list (Z -> Event) :=
  map (fun m => EMount (fst m) (snd m) None MS_BIND) mounts.

(** ** Further observations *)

Definition is_log (e : Event) : bool :=
  match e with ELog _ _ _ => true | _ => false end.
Definition is_scan (e : Event) : bool :=
  match e with EScanPackagesDirAndActivate _ => true | _ => false end.
Definition is_chroot (e : Event) : bool :=
  match e with EChroot _ _ => true | _ => false end.
Definition is_apexd_activation (e : Event) : bool :=
  is_scan e || is_activation e.

(** The descriptor of a [close]. *)
Definition fd_of (e : Event) : Z :=
  match e with EClose fd _ => fd | _ => 0 end.

(** The descriptors closed, in the order of the calls. *)
Definition closes (tr : Trace) : list Z := map fd_of (filter is_close tr).

(** The descriptor that [CloseDescriptor] of the string [s] closes, if any. *)
Definition status_fds (s : string) : list Z :=
  let '(fd, fail) := istream_extract_int s (-1) in
  if negb fail && (0 <=? fd) then [fd] else [].

(** A mount whose target is under [dir]. *)
Definition is_mount_under (dir : string) (e : Event) : bool :=
  match e with
  | EMount _ target _ _ _ => String.prefix dir target
  | _ => false
  end.

(** The statuses returned by [deactivatePackage], in the order of the calls. *)
Fixpoint deactivation_statuses (tr : Trace) : list Status :=
  match tr with
  | [] => []
  | EDeactivatePackage _ st :: rest => st :: deactivation_statuses rest
  | _ :: rest => deactivation_statuses rest
  end.

(** Every character of [s] is white space. *)
Fixpoint all_space (s : string) : bool :=
  match s with
  | EmptyString => true
  | String c rest => isspace c && all_space rest
  end.

(** A mount with [MS_REC] among its flags. *)
Definition is_recursive_mount (e : Event) : bool :=
  match e with
  | EMount _ _ _ flags _ => Z.testbit flags 14
  | _ => false
  end.

(** The target of a mount. *)
Definition mount_target (e : Event) : string :=
  match e with EMount _ target _ _ _ => target | _ => "" end.

(** No string occurs twice in the list. *)
Fixpoint all_distinct (l : list string) : bool :=
  match l with
  | [] => true
  | s :: rest => negb (existsb (String.eqb s) rest) && all_distinct rest
  end.

(** A mount of a tmpfs file system. *)
Definition is_tmpfs_mount (e : Event) : bool :=
  match e with
  | EMount _ _ (Some fstype) _ _ => String.eqb fstype "tmpfs"
  | _ => false
  end.

(** ** Worlds in which the first steps succeed *)

(** The world lets the steps before the validation of the slot suffix
    succeed, whatever has happened before: [unshare], the private mount of
    /postinstall and the four core bind mounts all return 0. *)
Definition setup_succeeds (w : World) : Prop :=
  forall hist : Trace,
    w Z hist (Unshare CLONE_NEWNS) = 0
    /\ w Z hist (Mount "" "/postinstall" None MS_PRIVATE) = 0
    /\ forall m, In m kBindMounts ->
         w Z hist (Mount m ("/postinstall" ++ m) None MS_BIND) = 0.

(** The result recorded in the event [e] is what the world [w] answers to
    the call of [e] after the history [hist]. *)
Definition answered (w : World) (hist : Trace) (e : Event) : Prop :=
  match e with
  | EClose fd r => r = w Z hist (Close fd)
  | EUnshare flags r => r = w Z hist (Unshare flags)
  | EMount source target fstype mountflags r =>
      r = w Z hist (Mount source target fstype mountflags)
  | ERestorecon path flags r => r = w Z hist (Restorecon path flags)
  | EChmod path mode r => r = w Z hist (Chmod path mode)
  | EChown path owner group r => r = w Z hist (Chown path owner group)
  | EChdir path r => r = w Z hist (Chdir path)
  | EChroot path r => r = w Z hist (Chroot path)
  | EAccess path mode r => r = w Z hist (Access path mode)
  | EScanPackagesDirAndActivate _ => True
  | EGetActivePackages r => r = w _ hist GetActivePackages
  | EDeactivatePackage path r => r = w _ hist (DeactivatePackage path)
  | EForkExec cmd ok error_msg => (ok, error_msg) = w _ hist (ForkExec cmd)
  | ELog _ _ _ => True
  end.

(** * Sample environments, to run the program *)

Definition sample_packages : list ApexFile :=
  [mkApexFile "/system/apex/com.android.runtime";
   mkApexFile "/system/apex/com.android.tzdata"].

(** Has [fd] been closed in the history [tr]? *)
Definition closed_before (fd : Z) (tr : Trace) : bool :=
  existsb (fun e => match e with EClose fd' _ => fd' =? fd | _ => false end) tr.

(** Every call succeeds, except the [close] of a descriptor that has been
    closed before; two packages are active. *)
Definition world_ok : World := fun T tr c =>
  match c in Call T return T with
  | Close fd => if closed_before fd tr then -1 else 0
  | Unshare _ => 0
  | Mount _ _ _ _ => 0
  | Restorecon _ _ => 0
  | Chmod _ _ => 0
  | Chown _ _ _ => 0
  | Chdir _ => 0
  | Chroot _ => 0
  | Access _ _ => 0
  | ScanPackagesDirAndActivate _ => tt
  | GetActivePackages => sample_packages
  | DeactivatePackage _ => StatusSuccess
  | ForkExec _ => (true, "")
  | Log _ _ _ => tt
  end.

(** [world_ok], but for the calls that [override] answers. *)
Definition world_with (override : forall T : Type, Call T -> option T) : World :=
  fun T tr c =>
    match override T c with
    | Some r => r
    | None => world_ok T tr c
    end.

(** The execution of otapreopt fails. *)
Definition world_exec_fails : World :=
  world_with (fun T c =>
    match c in Call T return option T with
    | ForkExec _ => Some (false, "execv failed")
    | _ => None
    end).

(** The bind mount of /proc fails. *)
Definition world_proc_mount_fails : World :=
  world_with (fun T c =>
    match c in Call T return option T with
    | Mount _ target _ _ =>
        if String.eqb target "/postinstall/proc" then Some (-1) else None
    | _ => None
    end).

(** [restorecon] fails. *)
Definition world_relabel_fails : World :=
  world_with (fun T c =>
    match c in Call T return option T with
    | Restorecon _ _ => Some (-1)
    | _ => None
    end).

(** The runtime package has no 32-bit linker; the second package cannot be
    deactivated. *)
Definition world_no_linker32 : World :=
  world_with (fun T c =>
    match c in Call T return option T with
    | Access path _ =>
        if String.eqb path kRuntimeLinkerPath then Some (-1) else None
    | DeactivatePackage path =>
        if String.eqb path "/system/apex/com.android.tzdata"
        then Some (StatusFail "busy") else None
    | _ => None
    end).

(** The bind mount of the 32-bit libm.so fails. *)
Definition world_bionic32_fails : World :=
  world_with (fun T c =>
    match c in Call T return option T with
    | Mount _ target _ _ =>
        if String.eqb target "/bionic/lib/libm.so" then Some (-1) else None
    | _ => None
    end).

(** The bind mount of the 64-bit linker fails. *)
Definition world_bionic64_fails : World :=
  world_with (fun T c =>
    match c in Call T return option T with
    | Mount _ target _ _ =>
        if String.eqb target kLinkerMountPoint64 then Some (-1) else None
    | _ => None
    end).

(** A sample validator: the suffix is [_a] or [_b]. *)
Definition validate_ab (s : string) : bool :=
  String.eqb s "_a" || String.eqb s "_b".

Definition sample_argv : list string :=
  ["otapreopt_chroot"; "7"; "_b"; "dexopt"; "9"].

Definition short_argv : list string := ["otapreopt_chroot"; "7"].

Definition bad_suffix_argv : list string :=
  ["otapreopt_chroot"; "7"; "/../sda1"; "dexopt"].

Definition sample_main : list string -> Proc Z := main validate_ab "/system/apex".

Definition run_ok : Trace * Outcome Z :=
  Eval vm_compute in run (sample_main sample_argv) world_ok [].

Definition run_exec_fails : Trace * Outcome Z :=
  Eval vm_compute in run (sample_main sample_argv) world_exec_fails [].

Definition run_proc_mount_fails : Trace * Outcome Z :=
  Eval vm_compute in run (sample_main sample_argv) world_proc_mount_fails [].

Definition run_relabel_fails : Trace * Outcome Z :=
  Eval vm_compute in run (sample_main sample_argv) world_relabel_fails [].

Definition run_no_linker32 : Trace * Outcome Z :=
  Eval vm_compute in run (sample_main sample_argv) world_no_linker32 [].

Definition run_bionic32_fails : Trace * Outcome Z :=
  Eval vm_compute in run (sample_main sample_argv) world_bionic32_fails [].

Definition run_bionic64_fails : Trace * Outcome Z :=
  Eval vm_compute in run (sample_main sample_argv) world_bionic64_fails [].



(** No package can be deactivated. *)
Definition world_deactivation_fails : World :=
  world_with (fun T c =>
    match c in Call T return option T with
    | DeactivatePackage _ => Some (StatusFail "busy")
    | _ => None
    end).

(** The vendor and product partitions cannot be mounted. *)
Definition world_no_partitions : World :=
  world_with (fun T c =>
    match c in Call T return option T with
    | Mount _ _ (Some fstype) _ =>
        if String.eqb fstype "ext4" then Some (-1) else None
    | _ => None
    end).

(** [chroot] fails. *)
Definition world_chroot_fails : World :=
  world_with (fun T c =>
    match c in Call T return option T with
    | Chroot _ => Some (-1)
    | _ => None
    end).

(** [unshare] fails. *)
Definition world_unshare_fails : World :=
  world_with (fun T c =>
    match c in Call T return option T with
    | Unshare _ => Some (-1)
    | _ => None
    end).

Definition run_bad_suffix_unshare_fails : Trace * Outcome Z :=
  Eval vm_compute in run (sample_main bad_suffix_argv) world_unshare_fails [].

Definition run_no_partitions : Trace * Outcome Z :=
  Eval vm_compute in run (sample_main sample_argv) world_no_partitions [].

Definition run_chroot_fails : Trace * Outcome Z :=
  Eval vm_compute in run (sample_main sample_argv) world_chroot_fails [].


(** * Lemmas on paths *)

Lemma run_path_from {A} (p : Proc A) (w : World) (tr0 : Trace) :
  exists tr, fst (run p w tr0) = tr0 ++ tr /\ path p tr (snd (run p w tr0)).
Proof.
  revert tr0; induction p as [a | code | | T c k IH]; intro tr0; simpl.
  - exists []; rewrite app_nil_r; auto.
  - exists []; rewrite app_nil_r; auto.
  - exists []; rewrite app_nil_r; auto.
  - destruct (IH (w T tr0 c) (tr0 ++ [Ev c (w T tr0 c)])) as (tr & E & P).
    exists (Ev c (w T tr0 c) :: tr); split.
    + rewrite E, <- app_assoc; reflexivity.
    + eauto.
Qed.

Lemma run_path {A} (p : Proc A) (w : World) tr out :
  run p w [] = (tr, out) -> path p tr out.
Proof.
  intro E; destruct (run_path_from p w []) as (tr' & E1 & P).
  rewrite E in *; simpl in *; subst; exact P.
Qed.

Lemma path_DeactivateApexPackages {B} pkgs (f : unit -> Proc B) tr out :
  path (bind (DeactivateApexPackages pkgs) f) tr out ->
  exists sts tr', List.length sts = List.length pkgs /\
    tr = deactivation_trace pkgs sts ++ tr' /\ path (f tt) tr' out.
Proof.
  unfold DeactivateApexPackages.
  revert tr; induction pkgs as [| p pkgs IH]; intros tr H.
  - exists [], tr; auto.
  - cbn in H. destruct H as (st & tr1 & -> & H).
    destruct st as [| msg]; cbn in H.
    + destruct (IH _ H) as (sts & tr' & L & -> & P).
      exists (StatusSuccess :: sts), tr'; cbn [List.length]; rewrite L; auto.
    + destruct H as (u & tr2 & -> & H).
      destruct (IH _ H) as (sts & tr' & L & -> & P).
      exists (StatusFail msg :: sts), tr'; cbn [List.length]; rewrite L; auto.
Qed.

Lemma path_CloseDescriptor_string {B} s (f : unit -> Proc B) tr out :
  path (bind (CloseDescriptor_string s) f) tr out ->
  exists pre tr', close_string_trace s pre /\ tr = pre ++ tr' /\ path (f tt) tr' out.
Proof.
  unfold CloseDescriptor_string, close_string_trace, CloseDescriptor.
  destruct (istream_extract_int s (-1)) as [fd [|]]; cbn [negb andb].
  - intro H; exists [], tr; auto.
  - destruct (0 <=? fd); cbn.
    + intros (r & tr' & -> & H); exists [EClose fd r], tr'; eauto.
    + intro H; exists [], tr; auto.
Qed.

Lemma skipn_cons_nth_error {A} (l : list A) : forall i a,
  nth_error l i = Some a -> skipn i l = a :: skipn (S i) l.
Proof.
  induction l as [| x l IH]; intros [| i] a E; cbn in *; try discriminate.
  - congruence.
  - apply IH; assumption.
Qed.

(** The loop that fills [cmd] copies [count] arguments from index [i]. *)
Lemma push_args_firstn count : forall i arg cmd,
  (i + count <= List.length arg)%nat ->
  push_args count i arg cmd = Ret (cmd ++ firstn count (skipn i arg)).
Proof.
  induction count as [| count IH]; intros i arg cmd L; cbn [push_args firstn].
  - rewrite app_nil_r; reflexivity.
  - unfold arg_at.
    destruct (nth_error arg i) as [a |] eqn:E.
    + cbn [bind]. rewrite IH by lia.
      rewrite (skipn_cons_nth_error arg i a E), <- app_assoc. reflexivity.
    + apply nth_error_None in E; lia.
Qed.

Lemma path_bind_assoc {A B C} (p : Proc A) (f : A -> Proc B) (g : B -> Proc C)
    tr out :
  path (bind (bind p f) g) tr out -> path (bind p (fun x => bind (f x) g)) tr out.
Proof.
  revert tr; induction p as [a | code | | T c k IH]; intro tr; cbn; auto.
  intros (r & tr' & -> & H); eauto.
Qed.

(** *** Symbolic execution of a path hypothesis *)

Ltac path_cbn H :=
  cbn -[Z.eqb Z.ltb DeactivateApexPackages push_args CloseDescriptor_string
        size_t_of_int Z.of_nat Z.to_nat List.length Z.sub String.append
        MS_BIND MS_RDONLY MS_PRIVATE CLONE_NEWNS kPostinstallApexDir] in H.

Ltac path_split_bool H b :=
  lazymatch b with
  | negb (?r =? ?v) =>
      let E := fresh "E" in
      destruct (Z.eqb_spec r v) as [E | E]; [try subst r |]; path_cbn H
  | ?r =? ?v =>
      let E := fresh "E" in
      destruct (Z.eqb_spec r v) as [E | E]; [try subst r |]; path_cbn H
  | ?r <? ?v =>
      let E := fresh "E" in
      destruct (Z.ltb_spec r v) as [E | E]; path_cbn H
  | _ => let E := fresh "E" in destruct b eqn:E; path_cbn H
  end.

Ltac path_step H :=
  lazymatch type of H with
  | _ = [] /\ _ = _ => destruct H as [-> ->]
  | exists r tr', _ = _ :: tr' /\ _ =>
      let r := fresh "r" in let tr' := fresh "tr" in
      destruct H as (r & tr' & -> & H); path_cbn H
  | path (bind (bind _ _) _) _ _ => apply path_bind_assoc in H; path_cbn H
  | path (bind (DeactivateApexPackages _) _) _ _ =>
      let sts := fresh "sts" in let tr' := fresh "tr" in let L := fresh "Lsts" in
      apply path_DeactivateApexPackages in H;
      destruct H as (sts & tr' & L & -> & H); path_cbn H
  | path (bind (CloseDescriptor_string _) _) _ _ =>
      let pre := fresh "pre" in let tr' := fresh "tr" in let C := fresh "Hpre" in
      apply path_CloseDescriptor_string in H;
      destruct H as (pre & tr' & C & -> & H); path_cbn H
  | path (bind (when ?b _) _) _ _ => path_split_bool H b
  | path (when ?b _) _ _ => path_split_bool H b
  | path (bind (if ?b then _ else _) _) _ _ => path_split_bool H b
  | path (if ?b then _ else _) _ _ => path_split_bool H b
  | path (bind (let '(_, _) := ?x in _) _) _ _ =>
      destruct x; cbn [fst snd] in *; path_cbn H
  | path (let '(_, _) := ?x in _) _ _ =>
      destruct x; cbn [fst snd] in *; path_cbn H
  end.

Lemma close_string_trace_cases s pre :
  close_string_trace s pre ->
  pre = [] \/
  exists fd r, pre = [EClose fd r] /\ 0 <= fd /\ istream_extract_int s (-1) = (fd, false).
Proof.
  unfold close_string_trace.
  destruct (istream_extract_int s (-1)) as [fd [|]]; cbn [negb andb]; auto.
  destruct (Z.leb_spec 0 fd); auto.
  intros [r ->]; right; eauto.
Qed.

(** [argc] arguments are enough for [argc - 2] of them to be read from
    index 2, also when the conversion to [size_t] is taken into account. *)
Lemma forwarded_count_le (n : nat) :
  (2 <= n)%nat -> (2 + Z.to_nat (size_t_of_int (Z.of_nat n) - 2) <= n)%nat.
Proof.
  intro L; unfold size_t_of_int.
  assert (Z.of_nat n mod 2 ^ 64 <= Z.of_nat n) by (apply Z.mod_le; lia).
  lia.
Qed.

Lemma size_t_of_int_small (n : Z) : 0 <= n <= INT_MAX -> size_t_of_int n = n.
Proof.
  unfold size_t_of_int, INT_MAX; intro R; apply Z.mod_small; lia.
Qed.

Lemma argv_cases (argv : list string) :
  (List.length argv < 3)%nat \/ exists a0 a1 a2 rest, argv = a0 :: a1 :: a2 :: rest.
Proof.
  destruct argv as [| a0 [| a1 [| a2 rest]]]; cbn; try (left; lia).
  right; eauto.
Qed.

Section MainPaths.

Variable V : string -> bool.
Variable dir : string.

Lemma main_short argv :
  (List.length argv < 3)%nat ->
  main V dir argv = Vis (Log ERROR true "Not enough arguments.") (fun _ => Exit 208).
Proof.
  intro L; unfold main, otapreopt_chroot.
  replace (Z.of_nat (List.length argv) <? 3) with true
    by (symmetry; apply Z.ltb_lt; lia).
  reflexivity.
Qed.

Lemma main_long a0 a1 a2 rest :
  let argv := a0 :: a1 :: a2 :: rest in
  (Z.of_nat (List.length argv) <? 3) = false /\
  push_args (Z.to_nat (size_t_of_int (Z.of_nat (List.length argv)) - 2)) 2 argv
            ["/system/bin/otapreopt"]
  = Ret ("/system/bin/otapreopt"
         :: firstn (Z.to_nat (size_t_of_int (Z.of_nat (List.length argv)) - 2))
                   (a2 :: rest)).
Proof.
  intro argv; split.
  - apply Z.ltb_ge; subst argv; cbn [List.length]; lia.
  - rewrite push_args_firstn.
    + reflexivity.
    + apply forwarded_count_le; subst argv; cbn [List.length]; lia.
Qed.

End MainPaths.

(** All the paths of [main] on at least three arguments: [H] is replaced
    by one goal per path, with the trace and the outcome made explicit. *)
Ltac main_paths H :=
  unfold main, otapreopt_chroot in H;
  match type of H with
  | context [push_args _ 2 (?a0 :: ?a1 :: ?a2 :: ?rest)] =>
      let Hargc := fresh "Hargc" in let Hcmd := fresh "Hcmd" in
      destruct (main_long a0 a1 a2 rest) as [Hargc Hcmd];
      cbv zeta in Hargc, Hcmd;
      rewrite Hargc, Hcmd in H; clear Hargc Hcmd
  end;
  lazymatch type of H with
  | path _ ?tr ?out =>
      pattern tr, out;
      lazymatch goal with
      | |- ?Q tr out =>
          let q := fresh "Q" in
          set (q := Q);
          path_cbn H;
          repeat path_step H;
          subst q; cbv beta
      end
  end;
  rewrite ?app_nil_r in *.

(** The two forms of the trace of [CloseDescriptor] of a string. *)
Ltac split_pre :=
  match goal with
  | Hpre : close_string_trace _ ?pre |- _ =>
      let fd := fresh "fd" in let r := fresh "r" in
      let Hfd := fresh "Hfd" in let Hparse := fresh "Hparse" in
      destruct (close_string_trace_cases _ _ Hpre)
        as [-> | (fd & r & -> & Hfd & Hparse)];
      clear Hpre; cbn [app] in *
  end.

Lemma deactivations_deactivation_trace pkgs : forall sts,
  List.length sts = List.length pkgs ->
  deactivations (deactivation_trace pkgs sts) = map GetPath pkgs.
Proof.
  induction pkgs as [| p pkgs IH]; intros [| st sts] L; cbn in *; try lia; auto.
  destruct st; cbn; f_equal; apply IH; lia.
Qed.

Lemma in_deactivation_trace e pkgs : forall sts,
  In e (deactivation_trace pkgs sts) -> deactivation_event e = true.
Proof.
  induction pkgs as [| p pkgs IH]; intros [| st sts]; cbn; try tauto.
  intros [<- | H]; [reflexivity |].
  apply in_app_or in H; destruct H as [H | H]; [| eauto].
  destruct st; cbn in H; [tauto |].
  destruct H as [<- | []]; reflexivity.
Qed.

(** Case analysis of [H : In e tr] on an explicit trace: one goal per
    position at which [e] can be. *)
Ltac in_trace H :=
  cbn [In] in H;
  repeat (destruct H as [H | H]; [try discriminate H |]);
  try contradiction;
  try (apply in_deactivation_trace in H; discriminate H).


Lemma in_close_string_trace s pre e :
  close_string_trace s pre -> In e pre -> is_close e = true.
Proof.
  intros C H; destruct (close_string_trace_cases _ _ C) as [-> | (fd & r & -> & _)].
  - contradiction.
  - destruct H as [<- | []]; reflexivity.
Qed.

(** The same on a trace that still holds the events of [CloseDescriptor]
    of a string as an unknown segment. *)
Ltac in_trace' H :=
  cbn [In] in H;
  repeat first
    [ destruct H as [H | H]; [try discriminate H |]
    | apply in_app_or in H; destruct H as [H | H];
      [ try (match goal with
             | C : close_string_trace _ _ |- _ =>
                 apply (in_close_string_trace _ _ _ C) in H; discriminate H
             end)
      | cbn [In] in H ] ];
  try contradiction;
  try (apply in_deactivation_trace in H; discriminate H).

(** Membership in an explicit list. *)
Ltac in_solve := cbn [In]; repeat first [left; reflexivity | right].

Lemma filter_none {A} (p : A -> bool) (l : list A) :
  (forall x, In x l -> p x = false) -> filter p l = [].
Proof.
  induction l as [| x l IH]; intro Hp; cbn; [reflexivity |].
  rewrite (Hp x (or_introl eq_refl)); apply IH.
  intros y Hy; apply Hp; right; exact Hy.
Qed.

Lemma filter_deactivation_trace (p : Event -> bool) pkgs :
  (forall e, deactivation_event e = true -> p e = false) ->
  forall sts, filter p (deactivation_trace pkgs sts) = [].
Proof.
  intros Hp sts; apply filter_none.
  intros e Hin; apply Hp, (in_deactivation_trace _ _ _ Hin).
Qed.

Lemma existsb_deactivation_trace (p : Event -> bool) pkgs :
  (forall e, deactivation_event e = true -> p e = false) ->
  forall sts, existsb p (deactivation_trace pkgs sts) = false.
Proof.
  intros Hp sts; apply not_true_is_false; intro Hex.
  apply existsb_exists in Hex; destruct Hex as (e & Hin & He).
  apply in_deactivation_trace in Hin. rewrite (Hp e Hin) in He; discriminate.
Qed.

Lemma deactivation_event_cases (p : Event -> bool) :
  (forall path r, p (EDeactivatePackage path r) = false) ->
  (forall msg, p (ELog ERROR false msg) = false) ->
  forall e, deactivation_event e = true -> p e = false.
Proof.
  intros Hd Hl [] He; cbn in He; try discriminate; auto.
  destruct severity, with_errno; try discriminate; auto.
Qed.


(** * Further lemmas *)

(** A run of [p ;; f] is a run of [p] followed, when [p] returns, by a run
    of [f]. *)
Lemma run_bind {A B} (p : Proc A) (f : A -> Proc B) (w : World) : forall tr,
  run (bind p f) w tr
  = match run p w tr with
    | (tr', Returned a) => run (f a) w tr'
    | (tr', Exited code) => (tr', Exited code)
    | (tr', Undefined) => (tr', Undefined)
    end.
Proof.
  induction p as [a | code | | T c k IH]; intro tr; cbn; auto.
Qed.

Lemma skipws_all_space (ws s : string) :
  all_space ws = true -> skipws (ws ++ s) = skipws s.
Proof.
  induction ws as [| c ws IH]; cbn; [reflexivity |].
  intro H; apply andb_prop in H; destruct H as [Hc Hws].
  rewrite Hc; auto.
Qed.

(** A successful extraction gives a value of type [int]. *)
Lemma istream_extract_int_range (s : string) (fd0 : Z) :
  snd (istream_extract_int s fd0) = false ->
  INT_MIN <= fst (istream_extract_int s fd0) <= INT_MAX.
Proof.
  unfold istream_extract_int.
  destruct (skipws s) as [| c rest]; cbn [snd]; [discriminate |].
  destruct (if Ascii.eqb c "-" then (true, rest)
            else if Ascii.eqb c "+" then (false, rest)
                 else (false, String c rest)) as [negative digits].
  destruct (read_digits digits 0 0) as [magnitude [| n]]; cbn [snd]; [discriminate |].
  set (v := if negative then - magnitude else magnitude).
  destruct (Z.ltb_spec v INT_MIN); cbn [snd]; [discriminate |].
  destruct (Z.ltb_spec INT_MAX v); cbn [snd fst]; [discriminate |]. lia.
Qed.

Lemma close_string_trace_closes s pre :
  close_string_trace s pre -> closes pre = status_fds s.
Proof.
  unfold close_string_trace, status_fds, closes.
  destruct (istream_extract_int s (-1)) as [fd fail].
  destruct (negb fail && (0 <=? fd)).
  - intros [r ->]; reflexivity.
  - intros ->; reflexivity.
Qed.

Lemma close_string_trace_range s pre fd r :
  close_string_trace s pre -> In (EClose fd r) pre -> 0 <= fd <= INT_MAX.
Proof.
  unfold close_string_trace.
  pose proof (istream_extract_int_range s (-1)) as R.
  destruct (istream_extract_int s (-1)) as [fd' fail]; cbn [fst snd] in R.
  destruct fail; cbn [negb andb].
  - intros -> [].
  - destruct (Z.leb_spec 0 fd').
    + intros [r' ->] [E | []]; injection E as <- _. specialize (R eq_refl); lia.
    + intros -> [].
Qed.

(** Evaluation of an observation on an explicit trace that may end with the
    events of [DeactivateApexPackages]. *)
Ltac trace_compute :=
  cbn;
  rewrite ?filter_deactivation_trace by (apply deactivation_event_cases; reflexivity);
  rewrite ?existsb_deactivation_trace by (apply deactivation_event_cases; reflexivity);
  rewrite ?deactivations_deactivation_trace by assumption;
  cbn.

Lemma all_distinct_NoDup (l : list string) : all_distinct l = true -> NoDup l.
Proof.
  induction l as [| s l IH]; cbn; [constructor |].
  intro H; apply andb_prop in H; destruct H as [Hs Hl].
  constructor; [| auto].
  intro Hin. apply negb_true_iff in Hs.
  assert (existsb (String.eqb s) l = true) as E
    by (apply existsb_exists; exists s; split; [exact Hin | apply String.eqb_refl]).
  congruence.
Qed.

(** Every result in the trace of a run is an answer of the world. *)
Lemma answered_Ev (w : World) (hist : Trace) {T} (c : Call T) :
  answered w hist (Ev c (w T hist c)).
Proof.
  destruct c; cbn; try reflexivity.
  destruct (w (bool * string)%type hist (ForkExec cmd)); reflexivity.
Qed.

Lemma run_answered_from {A} (p : Proc A) (w : World) : forall tr0 e,
  In e (fst (run p w tr0)) -> In e tr0 \/ exists hist, answered w hist e.
Proof.
  induction p as [a | code | | T c k IH]; intros tr0 e; cbn; auto.
  intro Hin. destruct (IH _ _ _ Hin) as [Hin' | Hex]; [| auto].
  apply in_app_or in Hin'. destruct Hin' as [Hin' | [<- | []]]; [auto |].
  right; exists tr0; apply answered_Ev.
Qed.

Lemma run_answered {A} (p : Proc A) (w : World) tr out :
  run p w [] = (tr, out) ->
  forall e, In e tr -> exists hist, answered w hist e.
Proof.
  intros R e Hin.
  destruct (run_answered_from p w [] e) as [[] | Hex]; [| exact Hex].
  rewrite R; exact Hin.
Qed.

(** In a world where the first steps succeed, a path on which one of them
    has failed ([E : r <> 0]) is impossible; [A] is the fact given by
    [run_answered] and [Hw] says that the first steps succeed. *)
Ltac answered_absurd Hw A :=
  match goal with
  | E : ?r <> 0 |- _ =>
      let hist := fresh "hist" in
      let Hh := fresh "Hh" in
      match type of A with
      | forall e, In e ?T -> _ =>
          match T with
          | context [EUnshare ?f r] =>
              destruct (A (EUnshare f r)) as [hist Hh]; [in_solve |]
          | context [EMount ?s ?t ?fs ?fl r] =>
              destruct (A (EMount s t fs fl r)) as [hist Hh]; [in_solve |]
          end;
          cbn [answered] in Hh; apply E; rewrite Hh;
          first [ apply (proj1 (Hw hist))
                | apply (proj1 (proj2 (Hw hist)))
                | apply (proj2 (proj2 (Hw hist))); unfold kBindMounts; in_solve ]
      end
  end.

(** * The claims *)

Section Claims.

Variable ValidateTargetSlotSuffix : string -> bool.
Variable kApexPackageSystemDir : string.

(** C1.  When the active packages have been obtained, [deactivatePackage]
    is called once for each record of the returned set, in order, after the
    activation and never before it, on each of the four ways the run can
    end from there: the failure of the 32-bit Bionic mounts (215), of the
    64-bit Bionic mounts (216), of the execution (213), and success. *)
Theorem deactivation_exactly_once (w : World) argv tr out pkgs :
  run (main ValidateTargetSlotSuffix kApexPackageSystemDir argv) w [] = (tr, out) ->
  In (EGetActivePackages pkgs) tr ->
  deactivations (before is_activation tr) = [] /\
  deactivations (after is_activation tr) = map GetPath pkgs /\
  (out = Exited 215 \/ out = Exited 216 \/ out = Exited 213 \/ out = Returned 0).
Proof.
  intros H Hin; apply run_path in H.
  destruct (argv_cases argv) as [L | (a0 & a1 & a2 & rest & ->)].
  - rewrite (main_short _ _ _ L) in H; cbn in H.
    destruct H as (r & tr' & -> & -> & ->). in_trace Hin.
  - main_paths H.
    all: in_trace' Hin.
    all: injection Hin as ->.
    all: split_pre.
    all: cbn [before after is_activation deactivations].
    all: rewrite deactivations_deactivation_trace by assumption.
    all: tauto.
Qed.


(** C3.  The calls that finish the staging root are, in every run, an
    initial part of the seven calls of [finalizer_calls], in that order:
    the tmpfs mount on /postinstall/apex, restorecon, chmod, chown, chdir
    to /postinstall, chroot, chdir to the root.  A step that fails is the
    last one, and the process exits with the code of that step; a step
    that succeeds is followed by the next one.  The seven codes differ
    from one another.  When restorecon is reached, the tmpfs mount has
    succeeded before it, and neither chmod nor chown comes before it.  In
    a world where the steps before the finalizer succeed, and with a valid
    slot suffix, the tmpfs mount is made: the finalizer is entered. *)
Theorem finalizer_order (w : World) argv tr out :
  run (main ValidateTargetSlotSuffix kApexPackageSystemDir argv) w [] = (tr, out) ->
  (exists rs,
      filter is_finalizer_call tr = apply_results finalizer_calls rs
      /\ (List.length rs <= 7)%nat
      /\ forall i r, nth_error rs i = Some r ->
           if finalizer_failed i r
           then S i = List.length rs /\ out = Exited (nth i finalizer_codes 0)
           else (i < 6)%nat -> (S i < List.length rs)%nat)
  /\ NoDup finalizer_codes
  /\ (existsb is_relabel tr = true ->
      In (EMount "tmpfs" "/postinstall/apex" (Some "tmpfs")
                 (Z.lor (Z.lor MS_NODEV MS_NOEXEC) MS_NOSUID) 0)
         (before is_relabel tr)
      /\ existsb is_chmod_or_chown (before is_relabel tr) = false)
  /\ (setup_succeeds w ->
      forall suffix, nth_error argv 2 = Some suffix ->
      ValidateTargetSlotSuffix suffix = true ->
      exists r, hd_error (filter is_finalizer_call tr)
                = Some (EMount "tmpfs" "/postinstall/apex" (Some "tmpfs")
                               (Z.lor (Z.lor MS_NODEV MS_NOEXEC) MS_NOSUID) r)).
Proof.
  intros H; pose proof (run_answered _ _ _ _ H) as A; apply run_path in H.
  assert (ND : NoDup finalizer_codes).
  { unfold finalizer_codes.
    repeat (constructor; [cbn [In]; intros D; repeat destruct D as [D | D]; try discriminate D; try contradiction |]).
    constructor. }
  destruct (argv_cases argv) as [L | (a0 & a1 & a2 & rest & ->)].
  - rewrite (main_short _ _ _ L) in H; cbn in H.
    destruct H as (r & tr' & -> & -> & ->).
    split; [exists []; cbn; repeat split; try lia; intros [|i] r'; discriminate |].
    split; [exact ND |]. split; [cbn; discriminate |].
    intros _ suffix Hs _.
    assert (nth_error argv 2 <> None) as N by congruence.
    apply nth_error_Some in N; lia.
  - main_paths H.
    all: split_pre.
    all: (split; [| split; [exact ND | split]]).
    all: try match goal with
             | |- setup_succeeds _ -> _ =>
                 intros Hw suffix Hs HV; injection Hs as <-;
                 first [ eexists; trace_compute; reflexivity
                       | exfalso; answered_absurd Hw A
                       | exfalso;
                         match goal with
                         | E : negb (ValidateTargetSlotSuffix _) = true |- _ =>
                             rewrite HV in E; discriminate E
                         end ]
             end.
    all: clear A.
    all: try match goal with
             | |- exists rs, filter ?p ?t = _ /\ _ =>
                 exists (map result_of (filter p t))
             end.
    all: try match goal with
             | |- _ /\ _ /\ _ => cbn
             end.
    all: try rewrite (filter_deactivation_trace is_finalizer_call)
           by (apply deactivation_event_cases; reflexivity).
    all: try match goal with
             | |- _ /\ _ /\ _ => cbn [map result_of List.length]
             end.
    all: try (split; [reflexivity | split; [lia |]];
              intros step res Hn;
              repeat (destruct step as [| step]; cbn [nth_error] in Hn;
                      [try discriminate Hn | try discriminate Hn]);
              injection Hn as <-;
              cbv [finalizer_failed Nat.eqb];
              repeat match goal with
                     | |- context [?a =? ?b] => destruct (Z.eqb_spec a b); try lia
                     | |- context [?a <? ?b] => destruct (Z.ltb_spec a b); try lia
                     end;
              cbn [negb];
              first [split; reflexivity | cbn; lia]).
    all: intro Hex; vm_compute in Hex; try discriminate Hex; clear Hex;
         (split; [vm_compute; in_solve | vm_compute; reflexivity]).
Qed.

(** C4.  A run that fails at a place exits with the code of that place;
    a run that exits does so at one of the fifteen places; a run that
    returns, returns 0 and has failed nowhere.  The codes of two different
    places differ, and none is 0. *)
Theorem exit_codes_distinct (w : World) argv tr out :
  run (main ValidateTargetSlotSuffix kApexPackageSystemDir argv) w [] = (tr, out) ->
  (forall site, site_failed ValidateTargetSlotSuffix argv site tr = true ->
                out = Exited (site_code site))
  /\ (forall code, out = Exited code ->
        exists site, site_failed ValidateTargetSlotSuffix argv site tr = true
                     /\ code = site_code site)
  /\ (forall v, out = Returned v ->
        v = 0 /\ forall site, site_failed ValidateTargetSlotSuffix argv site tr = false)
  /\ (forall s1 s2, site_code s1 = site_code s2 -> s1 = s2)
  /\ (forall site, site_code site <> 0)
  /\ out <> Undefined.
Proof.
  intros H; apply run_path in H.
  assert (Inj : forall s1 s2, site_code s1 = site_code s2 -> s1 = s2).
  { intros [] []; cbn; intro D; try reflexivity; discriminate D. }
  assert (NZ : forall site, site_code site <> 0).
  { intros []; cbn; discriminate. }
  assert (T : forall p : Event -> bool,
             (forall path r, p (EDeactivatePackage path r) = false) ->
             (forall msg, p (ELog ERROR false msg) = false) ->
             forall pkgs sts, existsb p (deactivation_trace pkgs sts) = false).
  { intros p Hd Hg pkgs sts; apply existsb_deactivation_trace,
      deactivation_event_cases; assumption. }
  destruct (argv_cases argv) as [L | (a0 & a1 & a2 & rest & ->)].
  - rewrite (main_short _ _ _ L) in H; cbn in H.
    destruct H as (r & tr' & -> & -> & ->).
    assert (Hl : (Z.of_nat (List.length argv) <? 3) = true) by (apply Z.ltb_lt; lia).
    assert (Hn : nth_error argv 2 = None) by (apply nth_error_None; lia).
    split; [| split; [| split; [| split; [exact Inj | split; [exact NZ | discriminate]]]]].
    + intros [] Hf; unfold site_failed in Hf; rewrite ?Hn in Hf; cbn in Hf;
        try discriminate Hf; reflexivity.
    + intros code Hc; injection Hc as <-.
      exists InsufficientArguments; split; [exact Hl | reflexivity].
    + intros v Hv; discriminate Hv.
  - assert (Hl : (Z.of_nat (List.length (a0 :: a1 :: a2 :: rest)) <? 3) = false)
      by (apply Z.ltb_ge; cbn [List.length]; lia).
    main_paths H.
    all: split_pre.
    all: repeat match goal with
                | E : _ <> _ |- _ => apply Z.eqb_neq in E
                | E : _ < _ |- _ => apply Z.ltb_lt in E
                | E : _ <= _ |- _ => apply Z.ltb_ge in E
                | E : negb ?b = _ |- _ => destruct b eqn:?; try discriminate E; clear E
                end.
    all: (split; [intros site Hf | split; [| split; [| split; [exact Inj | split; [exact NZ | discriminate]]]]]).
    all: try (destruct site; revert Hf; unfold site_failed; rewrite ?Hl;
              cbn; rewrite ?T by reflexivity;
              repeat match goal with
                     | E : (_ =? _) = _ |- _ => rewrite E
                     | E : (_ <? _) = _ |- _ => rewrite E
                     | E : ValidateTargetSlotSuffix _ = _ |- _ => rewrite E
                     end;
              cbn; rewrite ?andb_false_r;
              intro Hf; try discriminate Hf; reflexivity).
    all: try (intros v Hv;
              first
                [ discriminate Hv
                | injection Hv as <-;
                  (split; [reflexivity |]);
                  intros site; destruct site; unfold site_failed; rewrite ?Hl;
                  cbn; rewrite ?T by reflexivity;
                  repeat match goal with
                         | E : (_ =? _) = _ |- _ => rewrite E
                         | E : (_ <? _) = _ |- _ => rewrite E
                         | E : ValidateTargetSlotSuffix _ = _ |- _ => rewrite E
                         end;
                  cbn; rewrite ?andb_false_r; reflexivity ]).
    all: intros code Hc; injection Hc as <-.
    all: match goal with
         | |- exists site, _ /\ ?c = _ =>
             lazymatch c with
             | 200 => exists UnshareFailure
             | 201 => exists PrivateMountFailure
             | 202 => exists CoreBindMountFailure
             | 207 => exists InvalidSlotSuffix
             | 209 => exists TmpfsMountFailure
             | 214 => exists RelabelFailure
             | 210 => exists ChmodFailure
             | 211 => exists ChownFailure
             | 203 => exists ChdirStagingFailure
             | 204 => exists ChrootFailure
             | 205 => exists ChdirRootFailure
             | 215 => exists Bionic32MountFailure
             | 216 => exists Bionic64MountFailure
             | 213 => exists ExecutionFailure
             end
         end.
    all: (split; [| reflexivity]); unfold site_failed; rewrite ?Hl;
              cbn; rewrite ?T by reflexivity;
              repeat match goal with
                     | E : (_ =? _) = _ |- _ => rewrite E
                     | E : (_ <? _) = _ |- _ => rewrite E
                     | E : ValidateTargetSlotSuffix _ = _ |- _ => rewrite E
                     end;
              cbn; rewrite ?orb_true_r; reflexivity.
Qed.

(** C5.  When a bind mount of a core directory fails, the process exits
    with code 202 and no call of a later step is in the trace; and in every
    run, the successful [unshare] and the successful private mount of
    /postinstall come before the first core bind mount. *)
Theorem core_bind_mount_failure (w : World) argv tr out :
  run (main ValidateTargetSlotSuffix kApexPackageSystemDir argv) w [] = (tr, out) ->
  (forall m r, In m kBindMounts -> r <> 0 ->
     In (EMount m ("/postinstall" ++ m) None MS_BIND r) tr ->
     out = Exited 202 /\ Forall (fun e => later_step e = false) tr)
  /\ (existsb is_core_bind_mount tr = true ->
      In (EUnshare CLONE_NEWNS 0) (before is_core_bind_mount tr)
      /\ In (EMount "" "/postinstall" None MS_PRIVATE 0) (before is_core_bind_mount tr)).
Proof.
  intros H; apply run_path in H.
  destruct (argv_cases argv) as [L | (a0 & a1 & a2 & rest & ->)].
  - rewrite (main_short _ _ _ L) in H; cbn in H.
    destruct H as (r & tr' & -> & -> & ->). split.
    + intros m r' _ _ Hin. in_trace Hin.
    + cbn. discriminate.
  - main_paths H.
    all: split.
    all: try (intros m r' Hm Hr Hin; in_trace' Hin;
              injection Hin as Hx Hy Hz; subst;
              cbn [kBindMounts In] in Hm; try congruence;
              try (exfalso; intuition discriminate)).
    all: try (split; [reflexivity | split_pre; repeat constructor]).
    all: split_pre; intro Hex; vm_compute in Hex; try discriminate Hex; clear Hex.
    all: split; vm_compute; in_solve.
Qed.

(** C6.  When the execution of otapreopt has been attempted, every active
    package is deactivated after it, and only then does the process end:
    with code 213 when the execution failed, by returning 0 when it
    succeeded. *)
Theorem exit_status_reflects_execution (w : World) argv tr out cmd ok msg :
  run (main ValidateTargetSlotSuffix kApexPackageSystemDir argv) w [] = (tr, out) ->
  In (EForkExec cmd ok msg) tr ->
  (exists pkgs, In (EGetActivePackages pkgs) (before is_exec tr)
                /\ deactivations (after is_exec tr) = map GetPath pkgs)
  /\ deactivations (before is_exec tr) = []
  /\ out = (if ok then Returned 0 else Exited 213).
Proof.
  intros H Hin; apply run_path in H.
  destruct (argv_cases argv) as [L | (a0 & a1 & a2 & rest & ->)].
  - rewrite (main_short _ _ _ L) in H; cbn in H.
    destruct H as (r & tr' & -> & -> & ->). in_trace Hin.
  - main_paths H.
    all: in_trace' Hin.
    all: injection Hin as _ <- _.
    all: match goal with
         | E : negb ?b = _ |- _ => destruct b; try discriminate E
         end.
    all: split_pre.
    all: cbn [before after is_exec deactivations].
    all: rewrite deactivations_deactivation_trace by assumption.
    all: (split; [eexists; split; [in_solve | reflexivity] | split; reflexivity]).
Qed.

(** C7.  [BindMountBionic], for either variant: when [access] does not
    find the linker, nothing is mounted and the result is [true]; when it
    does, the bind mounts attempted are an initial part of the list
    [bionic_mounts] (the linker first, then libc.so, libm.so and libdl.so
    from the source directory onto the mount directory), a mount that
    fails is the last one and makes the result [false], a mount that
    succeeds is followed by the next one, and the result is [true] after
    the last.  In [main]: when the 32-bit linker is absent no 32-bit
    artifact is mounted and the 64-bit variant is tried next; when the
    64-bit linker is absent no 64-bit artifact is mounted and otapreopt is
    executed next. *)
Theorem bionic_mounter (w : World) :
  (forall (tr0 : Trace)
          (linker_source lib_dir_source linker_mount_point lib_mount_dir : string),
    let a := w Z tr0 (Access linker_source F_OK) in
    let res := run (BindMountBionic linker_source lib_dir_source linker_mount_point
                                    lib_mount_dir) w tr0 in
    exists tr,
      fst res = tr0 ++ EAccess linker_source F_OK a :: tr
      /\ (a <> 0 -> filter is_mount tr = [] /\ snd res = Returned true)
      /\ (a = 0 ->
          exists rs,
            filter is_mount tr
            = apply_results
                (bionic_mount_calls
                   (bionic_mounts linker_source lib_dir_source linker_mount_point
                                  lib_mount_dir)) rs
            /\ (1 <= List.length rs <= 4)%nat
            /\ forall i r, nth_error rs i = Some r ->
                 if r =? -1 then S i = List.length rs /\ snd res = Returned false
                 else if (i <? 3)%nat then (S i < List.length rs)%nat
                      else snd res = Returned true))
  /\ (forall argv tr out,
     run (main ValidateTargetSlotSuffix kApexPackageSystemDir argv) w [] = (tr, out) ->
     (forall a, In (EAccess kRuntimeLinkerPath F_OK a) tr ->
        (a <> 0 ->
         filter (is_bind_mount_of bionic_mounts32) tr = []
         /\ exists a', In (EAccess kRuntimeLinkerPath64 F_OK a') tr)
        /\ (a = 0 ->
            exists rs,
              filter (is_bind_mount_of bionic_mounts32) tr
              = apply_results (bionic_mount_calls bionic_mounts32) rs
              /\ (1 <= List.length rs)%nat))
     /\ (forall a, In (EAccess kRuntimeLinkerPath64 F_OK a) tr ->
        (a <> 0 ->
         filter (is_bind_mount_of bionic_mounts64) tr = []
         /\ exists cmd ok msg, In (EForkExec cmd ok msg) tr)
        /\ (a = 0 ->
            exists rs,
              filter (is_bind_mount_of bionic_mounts64) tr
              = apply_results (bionic_mount_calls bionic_mounts64) rs
              /\ (1 <= List.length rs)%nat))).
Proof.
  split.
  { intros tr0 linker_source lib_dir_source linker_mount_point lib_mount_dir.
    intros a res; subst res.
    unfold BindMountBionic, access, call. cbn [bind run]. fold a.
    match goal with
    | |- context [run ?p w ?t] =>
        destruct (run_path_from p w t) as (tr & Ef & P);
        generalize dependent (run p w t); intros [tr1 out]; cbn [fst snd]; intros -> P
    end.
    exists tr; rewrite <- app_assoc; split; [reflexivity |].
    generalize dependent a; intros a P.
    path_cbn P; repeat path_step P.
    all: (split; intro Ha; try contradiction; try (exfalso; apply Ha; reflexivity)).
    all: try (split; reflexivity).
    all: match goal with
         | |- exists rs, filter ?p ?t = _ /\ _ => exists (map result_of (filter p t))
         end.
    all: cbn [filter is_mount map result_of List.length].
    all: (split; [reflexivity | split; [lia |]]).
    all: intros step res Hn;
         repeat (destruct step as [| step]; cbn [nth_error] in Hn;
                 [try discriminate Hn | try discriminate Hn]);
         injection Hn as <-;
         repeat match goal with
                | |- context [?a =? ?b] => destruct (Z.eqb_spec a b); try lia
                end;
         cbn; first [split; reflexivity | reflexivity | lia]. }
  intros argv tr out.
  intros H; apply run_path in H.
  destruct (argv_cases argv) as [L | (a0 & a1 & a2 & rest & ->)].
  - rewrite (main_short _ _ _ L) in H; cbn in H.
    destruct H as (r & tr' & -> & -> & ->).
    split; intros a Hin; in_trace Hin.
  - main_paths H.
    all: (split; intros a Hin; in_trace' Hin; injection Hin as <-).
    all: split_pre.
    all: (split; intro Ha; try contradiction; try (exfalso; apply Ha; reflexivity)).
    all: try match goal with
             | |- exists rs, filter ?p ?t = _ /\ _ => exists (map result_of (filter p t))
             end.
    all: cbn.
    all: rewrite ?filter_deactivation_trace
           by (apply deactivation_event_cases; reflexivity).
    all: cbn [map result_of List.length].
    all: (split; [reflexivity |]).
    all: first [lia | solve [eexists; in_solve] | solve [do 3 eexists; in_solve]].
Qed.

(** C8.  With fewer than three arguments the process logs one message and
    exits with code 208; the trace holds nothing else, in particular no
    mount, no close and no unshare. *)
Theorem insufficient_arguments (w : World) argv :
  (List.length argv < 3)%nat ->
  run (main ValidateTargetSlotSuffix kApexPackageSystemDir argv) w []
  = ([ELog ERROR true "Not enough arguments."], Exited 208)
  /\ Forall (fun e => is_mount e = false /\ is_close e = false /\ is_unshare e = false)
            (fst (run (main ValidateTargetSlotSuffix kApexPackageSystemDir argv) w [])).
Proof.
  intro L. rewrite (main_short _ _ _ L). cbn. split; [reflexivity |].
  repeat constructor.
Qed.

(** C9.  The argument vector given to [Exec] is the path of otapreopt
    followed by the arguments from index 2 on, unchanged and in order; it
    has [argc - 1] elements.  ([argc] is an [int].) *)
Theorem exec_argument_vector (w : World) argv tr out cmd ok msg :
  Z.of_nat (List.length argv) <= INT_MAX ->
  run (main ValidateTargetSlotSuffix kApexPackageSystemDir argv) w [] = (tr, out) ->
  In (EForkExec cmd ok msg) tr ->
  cmd = "/system/bin/otapreopt" :: skipn 2 argv
  /\ Z.of_nat (List.length cmd) = Z.of_nat (List.length argv) - 1
  /\ hd_error cmd = Some "/system/bin/otapreopt"
  /\ tl cmd = skipn 2 argv.
Proof.
  intros B H Hin; apply run_path in H.
  assert (G : cmd = "/system/bin/otapreopt" :: skipn 2 argv
              -> (3 <= List.length argv)%nat -> 
    cmd = "/system/bin/otapreopt" :: skipn 2 argv
  /\ Z.of_nat (List.length cmd) = Z.of_nat (List.length argv) - 1
  /\ hd_error cmd = Some "/system/bin/otapreopt"
  /\ tl cmd = skipn 2 argv).
  { intros -> L; repeat split. cbn [List.length]. rewrite length_skipn. lia. }
  destruct (argv_cases argv) as [L | (a0 & a1 & a2 & rest & ->)].
  - rewrite (main_short _ _ _ L) in H; cbn in H.
    destruct H as (r & tr' & -> & -> & ->). in_trace Hin.
  - assert (F : firstn (Z.to_nat (size_t_of_int (Z.of_nat (List.length (a0 :: a1 :: a2 :: rest))) - 2))
                  (a2 :: rest) = a2 :: rest).
    { rewrite size_t_of_int_small by lia. apply firstn_all2. cbn [List.length] in *. lia. }
    main_paths H.
    all: in_trace' Hin.
    all: injection Hin as Hc _ _; subst cmd; apply G;
      [f_equal; exact F | cbn [List.length]; lia].
Qed.

(** C10.  [CloseDescriptor] of a string always returns, never exits; when
    the extraction of an [int] fails, or gives a negative number, the trace
    is unchanged (nothing is closed); when it gives [fd >= 0], the trace
    grows by exactly one [close(fd)], whose result has no influence on what
    is returned. *)
Theorem CloseDescriptor_string_total (w : World) (tr0 : Trace) (s : string) :
  (exists tr, run (CloseDescriptor_string s) w tr0 = (tr, Returned tt))
  /\ (snd (istream_extract_int s (-1)) = true \/ fst (istream_extract_int s (-1)) < 0 ->
      run (CloseDescriptor_string s) w tr0 = (tr0, Returned tt))
  /\ (forall fd, istream_extract_int s (-1) = (fd, false) -> 0 <= fd ->
      run (CloseDescriptor_string s) w tr0
      = (tr0 ++ [EClose fd (w Z tr0 (Close fd))], Returned tt)).
Proof.
  unfold CloseDescriptor_string, CloseDescriptor.
  destruct (istream_extract_int s (-1)) as [fd [|]]; cbn [fst snd negb].
  - cbn. split; [eauto |]. split; [reflexivity |]. intros fd' E; discriminate E.
  - destruct (Z.leb_spec 0 fd) as [P | N]; cbn.
    + split; [eauto |]. split.
      * intros [? | ?]; [discriminate | lia].
      * intros fd' E _; injection E as <-; reflexivity.
    + split; [eauto |]. split; [reflexivity |].
      intros fd' E P; injection E as <-; lia.
Qed.

End Claims.

(** * The claims on sample runs *)

(** The extraction of an [int] on a few strings. *)
Example extract_digits : istream_extract_int "7" (-1) = (7, false).
Proof. reflexivity. Qed.

Example extract_leading_space_trailing_text :
  istream_extract_int "  42xyz" (-1) = (42, false).
Proof. reflexivity. Qed.

Example extract_negative : istream_extract_int "-3" (-1) = (-3, false).
Proof. reflexivity. Qed.

Example extract_empty : istream_extract_int "" (-1) = (-1, true).
Proof. reflexivity. Qed.

Example extract_no_digit : istream_extract_int "fd7" (-1) = (0, true).
Proof. reflexivity. Qed.

Example extract_out_of_range :
  istream_extract_int "2147483648" (-1) = (INT_MAX, true).
Proof. reflexivity. Qed.

(** The four ways a run ends once the packages are active: each package
    is deactivated once on all of them. *)
Example run_ok_deactivates :
  snd run_ok = Returned 0
  /\ deactivations (fst run_ok) = map GetPath sample_packages.
Proof. split; reflexivity. Qed.

Example run_exec_fails_deactivates :
  snd run_exec_fails = Exited 213
  /\ deactivations (fst run_exec_fails) = map GetPath sample_packages.
Proof. split; reflexivity. Qed.

Example run_bionic32_fails_deactivates :
  snd run_bionic32_fails = Exited 215
  /\ deactivations (fst run_bionic32_fails) = map GetPath sample_packages.
Proof. split; reflexivity. Qed.

Example run_bionic64_fails_deactivates :
  snd run_bionic64_fails = Exited 216
  /\ deactivations (fst run_bionic64_fails) = map GetPath sample_packages.
Proof. split; reflexivity. Qed.

Lemma deactivation_exactly_once_witness :
  run (sample_main sample_argv) world_exec_fails [] = run_exec_fails
  /\ In (EGetActivePackages sample_packages) (fst run_exec_fails)
  /\ deactivations (after is_activation (fst run_exec_fails))
     = map GetPath sample_packages.
Proof.
  assert (R : run (sample_main sample_argv) world_exec_fails [] = run_exec_fails)
    by (vm_compute; reflexivity).
  assert (I : In (EGetActivePackages sample_packages) (fst run_exec_fails))
    by (vm_compute; in_solve).
  split; [exact R | split; [exact I |]].
  exact (proj1 (proj2 (deactivation_exactly_once validate_ab "/system/apex"
                         world_exec_fails sample_argv _ _ sample_packages R I))).
Defined.



Lemma finalizer_order_witness :
  run (sample_main sample_argv) world_relabel_fails [] = run_relabel_fails
  /\ setup_succeeds world_relabel_fails
  /\ nth_error sample_argv 2 = Some "_b"
  /\ validate_ab "_b" = true
  /\ (exists r, hd_error (filter is_finalizer_call (fst run_relabel_fails))
                = Some (EMount "tmpfs" "/postinstall/apex" (Some "tmpfs")
                               (Z.lor (Z.lor MS_NODEV MS_NOEXEC) MS_NOSUID) r))
  /\ snd run_relabel_fails = Exited 214.
Proof.
  assert (R : run (sample_main sample_argv) world_relabel_fails [] = run_relabel_fails)
    by (vm_compute; reflexivity).
  assert (S : setup_succeeds world_relabel_fails).
  { intro hist. split; [reflexivity | split; [reflexivity |]].
    intros m Hm. cbn in Hm.
    repeat (destruct Hm as [<- | Hm]; [reflexivity |]). destruct Hm. }
  pose proof (finalizer_order validate_ab "/system/apex" world_relabel_fails
                sample_argv _ _ R) as T.
  split; [exact R | split; [exact S | split; [reflexivity | split; [reflexivity |]]]].
  split; [exact (proj2 (proj2 (proj2 T)) S "_b" eq_refl eq_refl) |].
  destruct (proj1 T) as (rs & Heq & _ & Hall).
  destruct rs as [| a [| b rs]]; [discriminate Heq | discriminate Heq |].
  injection Heq as _ Hb _.
  specialize (Hall 1%nat b eq_refl). rewrite <- Hb in Hall.
  exact (proj2 Hall).
Defined.

Lemma exit_codes_distinct_witness :
  run (sample_main sample_argv) world_proc_mount_fails [] = run_proc_mount_fails
  /\ site_failed validate_ab sample_argv CoreBindMountFailure (fst run_proc_mount_fails)
     = true
  /\ snd run_proc_mount_fails = Exited (site_code CoreBindMountFailure).
Proof.
  assert (R : run (sample_main sample_argv) world_proc_mount_fails []
              = run_proc_mount_fails) by (vm_compute; reflexivity).
  assert (F : site_failed validate_ab sample_argv CoreBindMountFailure
                (fst run_proc_mount_fails) = true) by (vm_compute; reflexivity).
  split; [exact R | split; [exact F |]].
  exact (proj1 (exit_codes_distinct validate_ab "/system/apex"
                  world_proc_mount_fails sample_argv _ _ R)
               CoreBindMountFailure F).
Defined.

Lemma core_bind_mount_failure_witness :
  run (sample_main sample_argv) world_proc_mount_fails [] = run_proc_mount_fails
  /\ In (EMount "/proc" "/postinstall/proc" None MS_BIND (-1))
        (fst run_proc_mount_fails)
  /\ snd run_proc_mount_fails = Exited 202
  /\ Forall (fun e => later_step e = false) (fst run_proc_mount_fails).
Proof.
  assert (R : run (sample_main sample_argv) world_proc_mount_fails []
              = run_proc_mount_fails) by (vm_compute; reflexivity).
  assert (I : In (EMount "/proc" ("/postinstall" ++ "/proc") None MS_BIND (-1))
                 (fst run_proc_mount_fails)) by (vm_compute; in_solve).
  split; [exact R | split; [exact I |]].
  apply (proj1 (core_bind_mount_failure validate_ab "/system/apex"
                  world_proc_mount_fails sample_argv _ _ R) "/proc" (-1)).
  - unfold kBindMounts; in_solve.
  - discriminate.
  - exact I.
Defined.

Lemma exit_status_reflects_execution_witness :
  run (sample_main sample_argv) world_exec_fails [] = run_exec_fails
  /\ In (EForkExec ["/system/bin/otapreopt"; "_b"; "dexopt"; "9"] false "execv failed")
        (fst run_exec_fails)
  /\ snd run_exec_fails = Exited 213.
Proof.
  assert (R : run (sample_main sample_argv) world_exec_fails [] = run_exec_fails)
    by (vm_compute; reflexivity).
  assert (I : In (EForkExec ["/system/bin/otapreopt"; "_b"; "dexopt"; "9"] false
                            "execv failed") (fst run_exec_fails))
    by (vm_compute; in_solve).
  split; [exact R | split; [exact I |]].
  exact (proj2 (proj2 (exit_status_reflects_execution validate_ab "/system/apex"
                         world_exec_fails sample_argv _ _ _ _ _ R I))).
Defined.

Lemma bionic_mounter_witness :
  run (sample_main sample_argv) world_no_linker32 [] = run_no_linker32
  /\ In (EAccess kRuntimeLinkerPath F_OK (-1)) (fst run_no_linker32)
  /\ filter (is_bind_mount_of bionic_mounts32) (fst run_no_linker32) = []
  /\ exists a', In (EAccess kRuntimeLinkerPath64 F_OK a') (fst run_no_linker32).
Proof.
  assert (R : run (sample_main sample_argv) world_no_linker32 [] = run_no_linker32)
    by (vm_compute; reflexivity).
  assert (I : In (EAccess kRuntimeLinkerPath F_OK (-1)) (fst run_no_linker32))
    by (vm_compute; in_solve).
  split; [exact R | split; [exact I |]].
  apply (proj1 (proj1 (proj2 (bionic_mounter validate_ab "/system/apex"
                                world_no_linker32) sample_argv _ _ R) (-1) I)).
  discriminate.
Defined.

Lemma insufficient_arguments_witness :
  (List.length short_argv < 3)%nat
  /\ run (sample_main short_argv) world_ok []
     = ([ELog ERROR true "Not enough arguments."], Exited 208).
Proof.
  assert (L : (List.length short_argv < 3)%nat) by (cbn; lia).
  split; [exact L |].
  exact (proj1 (insufficient_arguments validate_ab "/system/apex" world_ok
                  short_argv L)).
Defined.

Lemma exec_argument_vector_witness :
  Z.of_nat (List.length sample_argv) <= INT_MAX
  /\ run (sample_main sample_argv) world_ok [] = run_ok
  /\ In (EForkExec ["/system/bin/otapreopt"; "_b"; "dexopt"; "9"] true "")
        (fst run_ok)
  /\ ["/system/bin/otapreopt"; "_b"; "dexopt"; "9"]
     = "/system/bin/otapreopt" :: skipn 2 sample_argv.
Proof.
  assert (B : Z.of_nat (List.length sample_argv) <= INT_MAX)
    by (vm_compute; discriminate).
  assert (R : run (sample_main sample_argv) world_ok [] = run_ok)
    by (vm_compute; reflexivity).
  assert (I : In (EForkExec ["/system/bin/otapreopt"; "_b"; "dexopt"; "9"] true "")
                 (fst run_ok)) by (vm_compute; in_solve).
  split; [exact B | split; [exact R | split; [exact I |]]].
  exact (proj1 (exec_argument_vector validate_ab "/system/apex" world_ok
                  sample_argv _ _ _ _ _ B R I)).
Defined.

Lemma CloseDescriptor_string_total_witness :
  istream_extract_int "7" (-1) = (7, false)
  /\ run (CloseDescriptor_string "7") world_ok [EClose 7 0]
     = ([EClose 7 0; EClose 7 (-1)], Returned tt).
Proof.
  split; [reflexivity |].
  exact (proj2 (proj2 (CloseDescriptor_string_total world_ok [EClose 7 0] "7"))
               7 eq_refl ltac:(discriminate)).
Defined.

(** * Further properties of the code *)

Section Further.

Variable ValidateTargetSlotSuffix : string -> bool.
Variable kApexPackageSystemDir : string.

(** X1.  [DeactivateApexPackages] always returns: it calls
    [deactivatePackage] once for each package, in order, also after a
    deactivation has failed; it logs one message for each failure and does
    nothing else. *)
Theorem DeactivateApexPackages_all (w : World) (pkgs : list ApexFile) : forall tr0,
  exists added,
    run (DeactivateApexPackages pkgs) w tr0 = (tr0 ++ added, Returned tt)
    /\ deactivations added = map GetPath pkgs
    /\ List.length (filter is_log added)
       = List.length (filter (fun st => negb (Ok st)) (deactivation_statuses added))
    /\ Forall (fun e => deactivation_event e = true) added.
Proof.
  unfold DeactivateApexPackages.
  set (body := fun apex_file : ApexFile => _).
  induction pkgs as [| p pkgs IH]; intro tr0.
  - exists []; cbn; rewrite app_nil_r; auto.
  - cbn [for_each]. rewrite run_bind.
    set (st := w Status tr0 (DeactivatePackage (GetPath p))).
    assert (Hbody : exists logs,
               run (body p) w tr0
               = (tr0 ++ EDeactivatePackage (GetPath p) st :: logs, Returned tt)
               /\ logs = (if Ok st then []
                          else [ELog ERROR false
                                  ("Failed to deactivate " ++ GetPath p ++ ": "
                                   ++ ErrorMessage st)%string])).
    { subst body; cbn [deactivatePackage call bind run Ev]; fold st.
      destruct st; cbn;
        try match goal with
            | |- context [w unit ?t ?c] => destruct (w unit t c)
            end;
        eexists; rewrite <- ?app_assoc; split; reflexivity. }
    destruct Hbody as (logs & -> & Hlogs).
    destruct (IH (tr0 ++ EDeactivatePackage (GetPath p) st :: logs))
      as (added & -> & D & L & F).
    exists (EDeactivatePackage (GetPath p) st :: logs ++ added).
    split; [rewrite <- app_assoc; reflexivity |].
    subst logs; destruct st; cbn; repeat split; auto; congruence.
Qed.

(** X2.  [BindMount] makes one [mount] call, without a file system type,
    whose flags are [MS_BIND], with [MS_REC] added exactly when [recursive]
    is set.  It reports failure, and logs, only when the call returns -1:
    any other result, also a positive one, counts as success. *)
Theorem BindMount_result (w : World) (tr0 : Trace) (source mount_point : string)
    (recursive : bool) :
  exists flags,
    let r := w Z tr0 (Mount source mount_point None flags) in
    run (BindMount source mount_point recursive) w tr0
    = (tr0 ++ EMount source mount_point None flags r
           :: (if r =? -1
               then [ELog ERROR true
                       ("Could not bind-mount " ++ source ++ " to " ++ mount_point)%string]
               else []),
       Returned (negb (r =? -1)))
    /\ (forall i, Z.testbit flags i
                  = (i =? 12) || (recursive && (i =? 14))).
Proof.
  exists (if recursive then Z.lor MS_BIND MS_REC else MS_BIND).
  cbv zeta. split.
  - unfold BindMount, mount, call. cbn [bind run Ev].
    destruct (_ =? -1); cbn; rewrite <- ?app_assoc; reflexivity.
  - intro i. destruct recursive; cbn [andb].
    + rewrite Z.lor_spec.
      change MS_BIND with (2 ^ 12); change MS_REC with (2 ^ 14).
      rewrite !Z.pow2_bits_eqb by lia.
      rewrite (Z.eqb_sym 12), (Z.eqb_sym 14); reflexivity.
    + change MS_BIND with (2 ^ 12).
      rewrite Z.pow2_bits_eqb by lia.
      rewrite (Z.eqb_sym 12), orb_false_r; reflexivity.
Qed.

(** X3.  White space before the number is skipped: [CloseDescriptor] of a
    string does the same with and without leading white space. *)
Theorem CloseDescriptor_string_leading_space (ws s : string) :
  all_space ws = true ->
  CloseDescriptor_string (ws ++ s) = CloseDescriptor_string s.
Proof.
  intro H; unfold CloseDescriptor_string, istream_extract_int.
  rewrite (skipws_all_space ws s H); reflexivity.
Qed.

(** X4.  A descriptor that is closed is never negative and always in the
    range of [int]: by [CloseDescriptor] of any string, and so in every
    run of [main], whatever the status descriptor argument holds. *)
Theorem closed_descriptors_in_range (w : World) :
  (forall tr0 s fd r,
      In (EClose fd r) (fst (run (CloseDescriptor_string s) w tr0)) ->
      In (EClose fd r) tr0 \/ 0 <= fd <= INT_MAX)
  /\ (forall argv tr out fd r,
      run (main ValidateTargetSlotSuffix kApexPackageSystemDir argv) w [] = (tr, out) ->
      In (EClose fd r) tr -> 0 <= fd <= INT_MAX).
Proof.
  split.
  - intros tr0 s fd r.
    pose proof (istream_extract_int_range s (-1)) as R.
    unfold CloseDescriptor_string, CloseDescriptor.
    destruct (istream_extract_int s (-1)) as [fd' fail]; cbn [fst snd] in R.
    destruct fail; cbn [negb]; [cbn; auto |].
    destruct (Z.leb_spec 0 fd'); cbn; [| auto].
    intro Hin; apply in_app_or in Hin; destruct Hin as [Hin | [E | []]]; [auto |].
    injection E as <- _; right; specialize (R eq_refl).
    cbv [INT_MAX INT_MIN] in *; lia.
  - intros argv tr out fd r H Hin; apply run_path in H.
    destruct (argv_cases argv) as [L | (a0 & a1 & a2 & rest & ->)].
    + rewrite (main_short _ _ _ L) in H; cbn in H.
      destruct H as (r' & tr' & -> & -> & ->). in_trace Hin.
    + main_paths H.
      all: in_trace' Hin.
      all: try (injection Hin as <- _; cbv; split; discriminate).
      all: match goal with
           | C : close_string_trace _ _ |- _ =>
               exact (close_string_trace_range _ _ _ _ C Hin)
           end.
Qed.

End Further.

Section FurtherMain.

Variable ValidateTargetSlotSuffix : string -> bool.
Variable kApexPackageSystemDir : string.

(** X5.  With at least three arguments, the first three calls of [main]
    close the descriptors 0, 1 and 2, in this order; the only other
    descriptor closed is the one read from the status argument, if there
    is one; and nothing is closed once [unshare] has been called. *)
Theorem main_closes_descriptors (w : World) argv status tr out :
  run (main ValidateTargetSlotSuffix kApexPackageSystemDir argv) w [] = (tr, out) ->
  (3 <= List.length argv)%nat ->
  nth_error argv 1 = Some status ->
  closes (firstn 3 tr) = [STDIN_FILENO; STDOUT_FILENO; STDERR_FILENO]
  /\ closes tr = [STDIN_FILENO; STDOUT_FILENO; STDERR_FILENO] ++ status_fds status
  /\ closes (after is_unshare tr) = [].
Proof.
  intros H L Hst; apply run_path in H.
  destruct (argv_cases argv) as [L' | (a0 & a1 & a2 & rest & ->)]; [lia |].
  injection Hst as ->.
  main_paths H.
  all: match goal with
       | C : close_string_trace _ _ |- _ =>
           pose proof (close_string_trace_closes _ _ C) as Hfds
       end.
  all: split_pre.
  all: unfold closes in *; rewrite <- Hfds.
  all: trace_compute.
  all: repeat split; reflexivity.
Qed.

(** X6.  The vendor and product partitions are mounted on a best-effort
    basis: once the core bind mounts are made and the slot suffix is
    valid, both mounts are attempted, once each, read-only as ext4 from
    the partition named after the suffix, and whatever they return the
    tmpfs mount on /postinstall/apex is attempted after both of them:
    the partition and tmpfs mounts of the run are, in this order, the
    vendor mount, the product mount and the tmpfs mount. *)
Theorem partition_mounts_best_effort (w : World) argv suffix tr out :
  run (main ValidateTargetSlotSuffix kApexPackageSystemDir argv) w [] = (tr, out) ->
  nth_error argv 2 = Some suffix ->
  ValidateTargetSlotSuffix suffix = true ->
  In (EMount "/sys" "/postinstall/sys" None MS_BIND 0) tr ->
  exists rv rp rt,
    filter is_partition_mount tr
    = [ EMount ("/dev/block/by-name/vendor" ++ suffix) "/postinstall/vendor"
               (Some "ext4") MS_RDONLY rv;
        EMount ("/dev/block/by-name/product" ++ suffix) "/postinstall/product"
               (Some "ext4") MS_RDONLY rp ]
    /\ filter (fun e => is_partition_mount e || is_tmpfs_mount e) tr
       = [ EMount ("/dev/block/by-name/vendor" ++ suffix) "/postinstall/vendor"
                  (Some "ext4") MS_RDONLY rv;
           EMount ("/dev/block/by-name/product" ++ suffix) "/postinstall/product"
                  (Some "ext4") MS_RDONLY rp;
           EMount "tmpfs" "/postinstall/apex" (Some "tmpfs")
                  (Z.lor (Z.lor MS_NODEV MS_NOEXEC) MS_NOSUID) rt ].
Proof.
  intros H Harg HV Hin; apply run_path in H.
  destruct (argv_cases argv) as [L | (a0 & a1 & a2 & rest & ->)].
  - assert (nth_error argv 2 <> None) as N by congruence.
    apply nth_error_Some in N; lia.
  - injection Harg as ->.
    main_paths H.
    all: try match goal with
             | E : negb (ValidateTargetSlotSuffix _) = true |- _ =>
                 rewrite HV in E; discriminate E
             end.
    all: in_trace' Hin.
    all: try (injection Hin as Hr; congruence).
    all: clear Hin; split_pre.
    all: do 3 eexists; trace_compute; (split; reflexivity).
Qed.

(** X7.  otapreopt is only ever executed inside the staging root: before
    the call of [Exec], the mount namespace has been unshared,
    /postinstall made private, the directory changed to /postinstall,
    the root changed to it and the directory changed to the new root, all
    with success; the slot suffix has passed the validation; and the
    packages have been scanned. *)
Theorem exec_only_in_chroot (w : World) argv tr out cmd ok msg :
  run (main ValidateTargetSlotSuffix kApexPackageSystemDir argv) w [] = (tr, out) ->
  In (EForkExec cmd ok msg) tr ->
  (exists suffix, nth_error argv 2 = Some suffix
                  /\ ValidateTargetSlotSuffix suffix = true)
  /\ Forall (fun e => In e (before is_exec tr))
       [ EUnshare CLONE_NEWNS 0;
         EMount "" "/postinstall" None MS_PRIVATE 0;
         EChdir "/postinstall" 0;
         EChroot "." 0;
         EChdir "/" 0;
         EScanPackagesDirAndActivate kApexPackageSystemDir ].
Proof.
  intros H Hin; apply run_path in H.
  destruct (argv_cases argv) as [L | (a0 & a1 & a2 & rest & ->)].
  - rewrite (main_short _ _ _ L) in H; cbn in H.
    destruct H as (r & tr' & -> & -> & ->). in_trace Hin.
  - main_paths H.
    all: in_trace' Hin.
    all: clear Hin; split_pre.
    all: (split; [exists a2; split; [reflexivity |];
                  destruct (ValidateTargetSlotSuffix a2); [reflexivity | discriminate] |]).
    all: cbn [before is_exec]; repeat (constructor; [in_solve |]); constructor.
Qed.

(** X8.  The packages are scanned and listed at most once, the list right
    after the scan of [kApexPackageSystemDir], and only after the root has
    been changed with success; a run that does not get there deactivates
    nothing. *)
Theorem activation_once_after_root_switch (w : World) argv tr out :
  run (main ValidateTargetSlotSuffix kApexPackageSystemDir argv) w [] = (tr, out) ->
  (filter is_apexd_activation tr = [] /\ deactivations tr = [])
  \/ (exists pkgs,
        filter is_apexd_activation tr
        = [EScanPackagesDirAndActivate kApexPackageSystemDir; EGetActivePackages pkgs]
        /\ hd_error (after is_scan tr) = Some (EGetActivePackages pkgs)
        /\ In (EChroot "." 0) (before is_scan tr)
        /\ In (EChdir "/" 0) (before is_scan tr)).
Proof.
  intros H; apply run_path in H.
  destruct (argv_cases argv) as [L | (a0 & a1 & a2 & rest & ->)].
  - rewrite (main_short _ _ _ L) in H; cbn in H.
    destruct H as (r & tr' & -> & -> & ->). left; split; reflexivity.
  - main_paths H.
    all: split_pre.
    all: first
           [ left; split; reflexivity
           | right; eexists; trace_compute;
             (split; [reflexivity | split; [reflexivity | split; in_solve]]) ].
Qed.

(** X9.  Until the packages are listed the program logs nothing but the
    reason of the exit it is about to make: a log message in that part of
    the trace is the last event, and the process exits. *)
Theorem logs_only_on_failure (w : World) argv tr out :
  run (main ValidateTargetSlotSuffix kApexPackageSystemDir argv) w [] = (tr, out) ->
  existsb is_log (before is_activation tr) = true ->
  after is_log tr = [] /\ exists code, out = Exited code.
Proof.
  intros H; apply run_path in H.
  destruct (argv_cases argv) as [L | (a0 & a1 & a2 & rest & ->)].
  - rewrite (main_short _ _ _ L) in H; cbn in H.
    destruct H as (r & tr' & -> & -> & ->). intros _; split; [reflexivity | eauto].
  - main_paths H.
    all: split_pre.
    all: cbn; intro Hlog;
         first [discriminate Hlog | split; [reflexivity | eauto]].
Qed.

(** X10.  Mounts stay inside the private namespace and the staging root:
    the first mount of a run comes after a successful [unshare] and is the
    one that makes /postinstall private; every mount before the change of
    root has its target under /postinstall, every mount after it under
    /bionic/; and no mount is recursive. *)
Theorem mounts_confined (w : World) argv tr out :
  run (main ValidateTargetSlotSuffix kApexPackageSystemDir argv) w [] = (tr, out) ->
  (existsb is_mount tr = true ->
   In (EUnshare CLONE_NEWNS 0) (before is_mount tr)
   /\ exists r, hd_error (filter is_mount tr)
                = Some (EMount "" "/postinstall" None MS_PRIVATE r))
  /\ forallb (is_mount_under "/postinstall") (filter is_mount (before is_chroot tr)) = true
  /\ forallb (is_mount_under "/bionic/") (filter is_mount (after is_chroot tr)) = true
  /\ existsb is_recursive_mount tr = false.
Proof.
  intros H; apply run_path in H.
  destruct (argv_cases argv) as [L | (a0 & a1 & a2 & rest & ->)].
  - rewrite (main_short _ _ _ L) in H; cbn in H.
    destruct H as (r & tr' & -> & -> & ->). cbn. repeat split; discriminate.
  - main_paths H.
    all: split_pre.
    all: trace_compute.
    all: (split; [intro Hm;
                  first [discriminate Hm
                        | split; [in_solve | eexists; reflexivity]]
                 | repeat split; reflexivity]).
Qed.

End FurtherMain.

Section FurtherNoRetry.

Variable ValidateTargetSlotSuffix : string -> bool.
Variable kApexPackageSystemDir : string.

(** X11.  Nothing is tried twice: in every run there is at most one
    [unshare], one [chroot] and one execution of otapreopt, no two mounts
    have the same target, and there are at most sixteen mounts. *)
Theorem no_retries (w : World) argv tr out :
  run (main ValidateTargetSlotSuffix kApexPackageSystemDir argv) w [] = (tr, out) ->
  (List.length (filter is_unshare tr) <= 1)%nat
  /\ (List.length (filter is_chroot tr) <= 1)%nat
  /\ (List.length (filter is_exec tr) <= 1)%nat
  /\ (List.length (filter is_mount tr) <= 16)%nat
  /\ NoDup (map mount_target (filter is_mount tr)).
Proof.
  intros H; apply run_path in H.
  destruct (argv_cases argv) as [L | (a0 & a1 & a2 & rest & ->)].
  - rewrite (main_short _ _ _ L) in H; cbn in H.
    destruct H as (r & tr' & -> & -> & ->). cbn. repeat split; try lia. constructor.
  - main_paths H.
    all: split_pre.
    all: trace_compute.
    all: (split; [lia | split; [lia | split; [lia | split; [lia |]]]]).
    all: apply all_distinct_NoDup; vm_compute; reflexivity.
Qed.

End FurtherNoRetry.

(** * The further properties on sample runs *)

(** A status argument that names a standard descriptor makes it be closed
    twice. *)
Example status_stdout_closed_twice :
  closes (fst (run (sample_main ["otapreopt_chroot"; "1"; "_a"; "dexopt"]) world_ok []))
  = [0; 1; 2; 1].
Proof. vm_compute. reflexivity. Qed.

(** The run goes on to success when neither partition can be mounted. *)
Example run_no_partitions_returns_0 : snd run_no_partitions = Returned 0.
Proof. reflexivity. Qed.

Lemma CloseDescriptor_string_leading_space_witness :
  all_space "  " = true
  /\ CloseDescriptor_string ("  " ++ "7") = CloseDescriptor_string "7".
Proof.
  split; [reflexivity |].
  exact (CloseDescriptor_string_leading_space "  " "7" eq_refl).
Defined.

Lemma closed_descriptors_in_range_witness :
  run (sample_main sample_argv) world_ok [] = run_ok
  /\ In (EClose 7 0) (fst run_ok)
  /\ 0 <= 7 <= INT_MAX.
Proof.
  assert (R : run (sample_main sample_argv) world_ok [] = run_ok)
    by (vm_compute; reflexivity).
  assert (I : In (EClose 7 0) (fst run_ok)) by (vm_compute; in_solve).
  split; [exact R | split; [exact I |]].
  exact (proj2 (closed_descriptors_in_range validate_ab "/system/apex" world_ok)
               sample_argv _ _ 7 0 R I).
Defined.

Lemma main_closes_descriptors_witness :
  run (sample_main sample_argv) world_ok [] = run_ok
  /\ (3 <= List.length sample_argv)%nat
  /\ nth_error sample_argv 1 = Some "7"
  /\ closes (fst run_ok) = [STDIN_FILENO; STDOUT_FILENO; STDERR_FILENO] ++ status_fds "7".
Proof.
  assert (R : run (sample_main sample_argv) world_ok [] = run_ok)
    by (vm_compute; reflexivity).
  assert (L : (3 <= List.length sample_argv)%nat) by (cbn; lia).
  split; [exact R | split; [exact L | split; [reflexivity |]]].
  exact (proj1 (proj2 (main_closes_descriptors validate_ab "/system/apex" world_ok
                         sample_argv "7" _ _ R L eq_refl))).
Defined.

Lemma partition_mounts_best_effort_witness :
  run (sample_main sample_argv) world_no_partitions [] = run_no_partitions
  /\ nth_error sample_argv 2 = Some "_b"
  /\ validate_ab "_b" = true
  /\ In (EMount "/sys" "/postinstall/sys" None MS_BIND 0) (fst run_no_partitions)
  /\ exists rv rp rt,
       filter is_partition_mount (fst run_no_partitions)
       = [ EMount ("/dev/block/by-name/vendor" ++ "_b") "/postinstall/vendor"
                  (Some "ext4") MS_RDONLY rv;
           EMount ("/dev/block/by-name/product" ++ "_b") "/postinstall/product"
                  (Some "ext4") MS_RDONLY rp ]
       /\ filter (fun e => is_partition_mount e || is_tmpfs_mount e)
                 (fst run_no_partitions)
          = [ EMount ("/dev/block/by-name/vendor" ++ "_b") "/postinstall/vendor"
                     (Some "ext4") MS_RDONLY rv;
              EMount ("/dev/block/by-name/product" ++ "_b") "/postinstall/product"
                     (Some "ext4") MS_RDONLY rp;
              EMount "tmpfs" "/postinstall/apex" (Some "tmpfs")
                     (Z.lor (Z.lor MS_NODEV MS_NOEXEC) MS_NOSUID) rt ].
Proof.
  assert (R : run (sample_main sample_argv) world_no_partitions [] = run_no_partitions)
    by (vm_compute; reflexivity).
  assert (I : In (EMount "/sys" "/postinstall/sys" None MS_BIND 0)
                 (fst run_no_partitions)) by (vm_compute; in_solve).
  split; [exact R | split; [reflexivity | split; [reflexivity | split; [exact I |]]]].
  exact (partition_mounts_best_effort validate_ab "/system/apex" world_no_partitions
           sample_argv "_b" _ _ R eq_refl eq_refl I).
Defined.

Lemma exec_only_in_chroot_witness :
  run (sample_main sample_argv) world_ok [] = run_ok
  /\ In (EForkExec ["/system/bin/otapreopt"; "_b"; "dexopt"; "9"] true "") (fst run_ok)
  /\ In (EChroot "." 0) (before is_exec (fst run_ok)).
Proof.
  assert (R : run (sample_main sample_argv) world_ok [] = run_ok)
    by (vm_compute; reflexivity).
  assert (I : In (EForkExec ["/system/bin/otapreopt"; "_b"; "dexopt"; "9"] true "")
                 (fst run_ok)) by (vm_compute; in_solve).
  split; [exact R | split; [exact I |]].
  pose proof (proj2 (exec_only_in_chroot validate_ab "/system/apex" world_ok
                       sample_argv _ _ _ _ _ R I)) as F.
  rewrite Forall_forall in F. apply F. in_solve.
Defined.

Lemma activation_once_after_root_switch_witness :
  run (sample_main sample_argv) world_chroot_fails [] = run_chroot_fails
  /\ filter is_apexd_activation (fst run_chroot_fails) = []
  /\ deactivations (fst run_chroot_fails) = [].
Proof.
  assert (R : run (sample_main sample_argv) world_chroot_fails [] = run_chroot_fails)
    by (vm_compute; reflexivity).
  split; [exact R |].
  destruct (activation_once_after_root_switch validate_ab "/system/apex"
              world_chroot_fails sample_argv _ _ R) as [H | (pkgs & H & _)].
  - exact H.
  - vm_compute in H; discriminate H.
Defined.

Lemma logs_only_on_failure_witness :
  run (sample_main sample_argv) world_chroot_fails [] = run_chroot_fails
  /\ existsb is_log (before is_activation (fst run_chroot_fails)) = true
  /\ after is_log (fst run_chroot_fails) = []
  /\ exists code, snd run_chroot_fails = Exited code.
Proof.
  assert (R : run (sample_main sample_argv) world_chroot_fails [] = run_chroot_fails)
    by (vm_compute; reflexivity).
  split; [exact R | split; [reflexivity |]].
  exact (logs_only_on_failure validate_ab "/system/apex" world_chroot_fails
           sample_argv _ _ R eq_refl).
Defined.

Lemma mounts_confined_witness :
  run (sample_main sample_argv) world_ok [] = run_ok
  /\ forallb (is_mount_under "/bionic/") (filter is_mount (after is_chroot (fst run_ok)))
     = true
  /\ existsb is_recursive_mount (fst run_ok) = false.
Proof.
  assert (R : run (sample_main sample_argv) world_ok [] = run_ok)
    by (vm_compute; reflexivity).
  split; [exact R |].
  exact (proj2 (proj2 (mounts_confined validate_ab "/system/apex" world_ok
                         sample_argv _ _ R))).
Defined.

Lemma no_retries_witness :
  run (sample_main sample_argv) world_ok [] = run_ok
  /\ (List.length (filter is_mount (fst run_ok)) <= 16)%nat
  /\ NoDup (map mount_target (filter is_mount (fst run_ok))).
Proof.
  assert (R : run (sample_main sample_argv) world_ok [] = run_ok)
    by (vm_compute; reflexivity).
  split; [exact R |].
  exact (proj2 (proj2 (proj2 (no_retries validate_ab "/system/apex" world_ok
                                sample_argv _ _ R)))).
Defined.
